(** * wptrunner/environment.py: the test environment of the web-platform-tests runner

    A shallow embedding of [tools/wptrunner/wptrunner/environment.py]:
    the logging proxy, the [TestEnvironment] context manager
    ([__init__], [__enter__], [__exit__], [build_config]) and the readiness
    poller ([test_servers], [ensure_started]).

    Python objects that are mutated in place (the options dict, the
    [TestEnvironment] instance) live in an explicit state; calls into
    collaborators (context managers, the server fleet, sockets, the clock)
    are recorded in a trace and may raise as an oracle of the world says. *)

From stdpp Require Import gmap strings list pretty.
From Stdlib Require Import ZArith NArith Lia.

Open Scope Z_scope.

(** ** Python values, exceptions *)

Inductive value :=
| VNone
| VBool (b : bool)
| VInt (z : Z)
| VStr (s : string).

(** Python truthiness, as used by [if x:] and [and]. *)
Definition truthy (v : value) : bool :=
  match v with
  | VNone => false
  | VBool b => b
  | VInt z => negb (z =? 0)
  | VStr s => negb (String.eqb s "")
  end.

(** [str(v)], as used by the [%s] conversion. *)
Definition str (v : value) : string :=
  match v with
  | VNone => "None"
  | VBool true => "True"
  | VBool false => "False"
  | VInt z => pretty z
  | VStr s => s
  end.

Inductive exn :=
| AssertionError (msg : string)
| EnvironmentError (msg : string)
| AttributeError (msg : string)
| TypeError (msg : string)
| KeyError (key : string)
| UnboundLocalError (name : string)
| RuntimeError (msg : string)
| CollaboratorError (tag : string).

(** ** A state and exception monad *)

Inductive result (A : Type) :=
| Ok (a : A)
| Raise (e : exn).
Arguments Ok {A} a.
Arguments Raise {A} e.

Definition M (S A : Type) : Type := S -> result A * S.

Definition ret {S A} (a : A) : M S A := fun s => (Ok a, s).

Definition bind {S A B} (m : M S A) (k : A -> M S B) : M S B :=
  fun s => match m s with
           | (Ok a, s') => k a s'
           | (Raise e, s') => (Raise e, s')
           end.

Definition raise {S A} (e : exn) : M S A := fun s => (Raise e, s).
Definition gets {S A} (f : S -> A) : M S A := fun s => (Ok (f s), s).
Definition modify {S} (f : S -> S) : M S unit := fun s => (Ok tt, f s).

Notation "x <- m ;; k" := (bind m (fun x => k))
  (at level 100, m at next level, right associativity).
Notation "m ;;; k" := (bind m (fun _ => k))
  (at level 100, right associativity).

(** [for x in l: body x] *)
Fixpoint for_each {S A} (l : list A) (body : A -> M S unit) : M S unit :=
  match l with
  | [] => ret tt
  | x :: l' => body x ;;; for_each l' body
  end.

(** [for x in l: acc = body x acc], for loops that append to a local list. *)
Fixpoint fold_each {S A B} (l : list A) (acc : B) (body : A -> B -> M S B) : M S B :=
  match l with
  | [] => ret acc
  | x :: l' => acc' <- body x acc ;; fold_each l' acc' body
  end.

Definition from_option {S A} (e : exn) (o : option A) : M S A :=
  match o with
  | Some a => ret a
  | None => raise e
  end.

(** ** The configuration builder *)

Definition dict := gmap string value.

(** The fields of [serve.ConfigBuilder] that [build_config] assigns. *)
Record ConfigBuilder := {
  ports : gmap string (list Z);
  check_subdomains : value;
  ssl : dict;
  browser_host : value;
  bind_address : value;
  server_host : value;
  doc_root : string;
}.

(** The JSON object of [config.json], one optional entry per key. *)
Record override_doc := {
  ov_ports : option (gmap string (list Z));
  ov_check_subdomains : option value;
  ov_ssl : option dict;
  ov_browser_host : option value;
  ov_bind_address : option value;
  ov_server_host : option value;
  ov_doc_root : option string;
}.

(** Modelled from the spec: [ConfigBuilder.update] is defined in tools/serve,
    which is not part of the sources.  The spec says that the keys of the
    override document deep-merge over (replace) the corresponding defaults.
    For a mapping-valued field this is [replace_defaults]: every key that has
    a default keeps it unless the override has a value for that key, which
    then replaces it; a key of the override that has no default to replace
    is not taken over. *)
Definition replace_defaults {A} (override defaults : gmap string A) : gmap string A :=
  merge (fun o d => match d with
                    | Some v => Some (default v o)
                    | None => None
                    end) override defaults.

(** Modelled from the spec: [config.update(override_obj)], see
    [replace_defaults]; a field that is not a mapping is replaced when the
    override document has it. *)
Definition update (override_obj : override_doc) (config : ConfigBuilder) : ConfigBuilder :=
  {| ports := match ov_ports override_obj with
              | Some p => replace_defaults p (ports config)
              | None => ports config
              end;
     check_subdomains := default (check_subdomains config) (ov_check_subdomains override_obj);
     ssl := match ov_ssl override_obj with
            | Some d => replace_defaults d (ssl config)
            | None => ssl config
            end;
     browser_host := default (browser_host config) (ov_browser_host override_obj);
     bind_address := default (bind_address config) (ov_bind_address override_obj);
     server_host := default (server_host config) (ov_server_host override_obj);
     doc_root := default (doc_root config) (ov_doc_root override_obj) |}.

(** What [build_config] reads from outside: the fresh builder returned by
    [serve.ConfigBuilder(...)] and the parsed [config.json] of a directory,
    if that file exists. *)
Record ConfigSource := {
  new_builder : ConfigBuilder;
  config_json : string -> option override_doc;
}.

(** ** The world outside the module *)

Definition handle := nat.
Definition loc := nat.

Inductive resource :=
| ServerLoggingCtx      (* self.server_logging_ctx *)
| ConfigCtx             (* self.config_ctx *)
| StashRes              (* self.stash *)
| CacheManager          (* self.cache_manager *)
| ExtraCm (i : nat)     (* one element of self.env_extras_cms *)
| Fleet.                (* self.servers *)

Inductive sighandler := SIG_IGN | SIG_DFL.

(** Calls that leave the module, in the order they are made. *)
Inductive event :=
| EvSignal (h : sighandler)                (* signal.signal(SIGINT, h) *)
| EvEnter (r : resource)                   (* r.__enter__() *)
| EvExit (r : resource)                    (* r.__exit__(...) *)
| EvExtraNew (i : nat) (options : loc)     (* env(self.options, self.config) *)
| EvGetRoutes                              (* self.get_routes(): its calls outside *)
| EvServeStart                             (* serve.start(...) *)
| EvKill (scheme : string) (port : Z) (server : handle)   (* server.kill() *)
| EvSocket                                 (* s = socket.socket() *)
| EvSetTimeout (ms : N)                    (* s.settimeout(ms / 1000) *)
| EvConnect (host : value) (port : Z)      (* s.connect((host, port)) *)
| EvClose (host : value) (port : Z)        (* s.close() *)
| EvSleep (ms : N).                        (* time.sleep(ms / 1000) *)

(** The fleet: [scheme -> [(port, server)]], a dict iterated in insertion
    order. *)
Definition fleet := list (string * list (Z * handle)).

(** What [get_routes] reads besides the attributes in [TestEnvironment]:
    the other attributes of the object, [self.test_paths] as [items()] lists
    it (in [__enter__] this is taken from [self.test_paths], see
    [routes_of]), and the file system: [resolve path] is
    [os.path.normpath(os.path.join(here, path))], the two [pdf_js] paths are
    the [os.path.join(here, "..", "..", "third_party", "pdf_js", ...)]
    expressions, and the two documents are the contents of
    [resources/testdriver.js] and [testdriver-extra.js]. *)
Record RouteSource := {
  test_paths_items : list (string * gmap string string);
  pause_after_test : value;
  testharness_timeout_multipler : value;
  debug_test : value;
  mojojs_path : option string;
  resolve : string -> string;
  pdf_js : string;
  pdf_worker_js : string;
  testdriver_js : string;
  testdriver_extra_js : string;
}.

Record World := {
  clock : N;                                  (* time.time(), in milliseconds *)
  trace : list event;                         (* newest last *)
  heap : gmap loc dict;                       (* the dict objects *)
  alive : N -> handle -> bool;                (* server.is_alive() at a time *)
  accepts : N -> value -> Z -> bool;          (* does connect succeed at a time *)
  probe_ms : N;                               (* time one connect attempt takes *)
  raises : event -> option exn;               (* which collaborator calls raise *)
  started : fleet;                            (* what serve.start returns *)
  config_src : ConfigSource;                  (* what build_config reads *)
  route_src : RouteSource;                    (* what get_routes reads *)
}.

Definition log (ev : event) (w : World) : World :=
  {| clock := clock w; trace := trace w ++ [ev]; heap := heap w;
     alive := alive w; accepts := accepts w; probe_ms := probe_ms w;
     raises := raises w; started := started w;
     config_src := config_src w; route_src := route_src w |}.

Definition advance (ms : N) (w : World) : World :=
  {| clock := (clock w + ms)%N; trace := trace w; heap := heap w;
     alive := alive w; accepts := accepts w; probe_ms := probe_ms w;
     raises := raises w; started := started w;
     config_src := config_src w; route_src := route_src w |}.

Definition set_heap (h : gmap loc dict) (w : World) : World :=
  {| clock := clock w; trace := trace w; heap := h;
     alive := alive w; accepts := accepts w; probe_ms := probe_ms w;
     raises := raises w; started := started w;
     config_src := config_src w; route_src := route_src w |}.

(** A call to a collaborator: it is recorded, then it raises or returns, as
    the oracle of the world says for this call.  The collaborators are taken
    not to write to the dict objects of the heap. *)
Definition call (ev : event) : M World unit :=
  fun w => match raises w ev with
           | Some e => (Raise e, log ev w)
           | None => (Ok tt, log ev w)
           end.

Definition time_time : M World N := gets clock.

Definition time_sleep (ms : N) : M World unit :=
  fun w => (Ok tt, advance ms (log (EvSleep ms) w)).

(** [server.is_alive()]: a query that the world answers; it is not recorded
    in the trace. *)
Definition is_alive (server : handle) : M World bool :=
  fun w => (Ok (alive w (clock w) server), w).

(** [type(v).__name__] *)
Definition type_name (v : value) : string :=
  match v with
  | VNone => "NoneType"
  | VBool _ => "bool"
  | VInt _ => "int"
  | VStr _ => "str"
  end.

(** The error of [s.connect((host, port))] for a host that is not a string;
    it is not a [socket.error]. *)
Definition connect_error (host : value) : exn :=
  TypeError ("str, bytes or bytearray expected, not " +:+ type_name host).

(** [try: body finally: cleanup] *)
Definition try_finally {S A} (body : M S A) (cleanup : M S unit) : M S A :=
  fun s => let '(r, s') := body s in
           match cleanup s' with
           | (Ok _, s'') => (r, s'')
           | (Raise e, s'') => (Raise e, s'')
           end.

(** [try: s.connect((host, port)) except socket.error: ...]: [true] when the
    connection was made, [false] when [connect] raised a [socket.error],
    after the time the attempt takes.  With a host that is not a string
    [connect] raises a [TypeError], which the handler does not catch. *)
Definition connect (host : value) (port : Z) : M World bool :=
  fun w =>
    match host with
    | VStr _ => (Ok (accepts w (clock w) host port),
                 advance (probe_ms w) (log (EvConnect host port) w))
    | _ => (Raise (connect_error host), log (EvConnect host port) w)
    end.

(** [s = socket.socket(); s.settimeout(0.1); try: s.connect((host, port))
    except socket.error: ... finally: s.close()] *)
Definition try_connect (host : value) (port : Z) : M World bool :=
  modify (log EvSocket) ;;;
  modify (log (EvSetTimeout 100)) ;;;
  try_finally (connect host port) (modify (log (EvClose host port))).

(** ** TestEnvironment *)

Record DebugInfo := { interactive : bool }.

(** The attributes of a [TestEnvironment] that the modelled methods use.  The
    context managers held by the object are named by [resource]; an extra is
    named by its index in [env_extras].  [__init__] assigns [self.server],
    not [self.servers]: the attribute [servers] does not exist ([None] here)
    until [__enter__] assigns it.  [logging_thread_started] is the state of
    [self.server_logging_ctx.logging_thread], the thread object that
    [ProxyLoggingContext.__init__] makes once. *)
Record TestEnvironment := {
  test_paths : gmap string (gmap string string);
  servers : option fleet;                  (* unset until serve.start returns *)
  config_ctx : option ConfigBuilder;
  config : option ConfigBuilder;
  test_server_port : value;
  debug_info : option DebugInfo;
  options : loc;
  env_extras : list nat;
  env_extras_cms : option (list nat);
  ssl_config : dict;
  enable_quic : bool;
  logging_thread_started : bool;
}.

(** [test_paths["/"]["tests_path"]] *)
Definition serve_path (test_paths : gmap string (gmap string string)) : result string :=
  match test_paths !! "/" with
  | Some paths => match paths !! "tests_path" with
                  | Some p => Ok p
                  | None => Raise (KeyError "tests_path")
                  end
  | None => Raise (KeyError "/")
  end.

(** [d.pop(key, dflt)] on the dict object at [l]: the value, and the heap
    after the key was removed from that object. *)
Definition dict_pop (l : loc) (key : string) (dflt : value) (h : gmap loc dict)
  : value * gmap loc dict :=
  match h !! l with
  | Some d => (default dflt (d !! key), <[l := delete key d]> h)
  | None => (dflt, h)
  end.

(** [d.get(key, dflt)] on the dict object at [l]. *)
Definition dict_get (l : loc) (key : string) (dflt : value) (h : gmap loc dict) : value :=
  match h !! l with
  | Some d => default dflt (d !! key)
  | None => dflt
  end.

(** [key in d] on the dict object at [l]. *)
Definition dict_mem (l : loc) (key : string) (h : gmap loc dict) : bool :=
  match h !! l with
  | Some d => bool_decide (is_Some (d !! key))
  | None => false
  end.

(** [TestEnvironment.__init__]; [options] is [None] or a dict object. *)
Definition __init__ (test_paths : gmap string (gmap string string))
    (debug_info : option DebugInfo) (options : option loc) (ssl_config : dict)
    (env_extras : list nat) (enable_quic : bool) : M World TestEnvironment :=
  match options with
  | None => raise (AttributeError "'NoneType' object has no attribute 'pop'")
  | Some l =>
      h <- gets heap ;;
      let '(port, h') := dict_pop l "test_server_port" (VBool true) h in
      modify (set_heap h') ;;;
      ret {| test_paths := test_paths; servers := None; config_ctx := None;
             config := None; test_server_port := port; debug_info := debug_info;
             options := l; env_extras := env_extras; env_extras_cms := None;
             ssl_config := ssl_config; enable_quic := enable_quic;
             logging_thread_started := false |}
  end.

Definition default_ports : gmap string (list Z) :=
  <["http" := [8000; 8001]]> (<["https" := [8443; 8444]]> (<["ws" := [8888]]>
    (<["wss" := [8889]]> (<["h2" := [9000]]> ∅)))).

(** Attribute assignments on the builder. *)
Definition set_ports (p : gmap string (list Z)) (c : ConfigBuilder) : ConfigBuilder :=
  {| ports := p; check_subdomains := check_subdomains c; ssl := ssl c;
     browser_host := browser_host c; bind_address := bind_address c;
     server_host := server_host c; doc_root := doc_root c |}.
Definition set_check_subdomains (v : value) (c : ConfigBuilder) : ConfigBuilder :=
  {| ports := ports c; check_subdomains := v; ssl := ssl c;
     browser_host := browser_host c; bind_address := bind_address c;
     server_host := server_host c; doc_root := doc_root c |}.
Definition set_ssl (d : dict) (c : ConfigBuilder) : ConfigBuilder :=
  {| ports := ports c; check_subdomains := check_subdomains c; ssl := d;
     browser_host := browser_host c; bind_address := bind_address c;
     server_host := server_host c; doc_root := doc_root c |}.
Definition set_browser_host (v : value) (c : ConfigBuilder) : ConfigBuilder :=
  {| ports := ports c; check_subdomains := check_subdomains c; ssl := ssl c;
     browser_host := v; bind_address := bind_address c;
     server_host := server_host c; doc_root := doc_root c |}.
Definition set_bind_address (v : value) (c : ConfigBuilder) : ConfigBuilder :=
  {| ports := ports c; check_subdomains := check_subdomains c; ssl := ssl c;
     browser_host := browser_host c; bind_address := v;
     server_host := server_host c; doc_root := doc_root c |}.
Definition set_server_host (v : value) (c : ConfigBuilder) : ConfigBuilder :=
  {| ports := ports c; check_subdomains := check_subdomains c; ssl := ssl c;
     browser_host := browser_host c; bind_address := bind_address c;
     server_host := v; doc_root := doc_root c |}.
Definition set_doc_root (r : string) (c : ConfigBuilder) : ConfigBuilder :=
  {| ports := ports c; check_subdomains := check_subdomains c; ssl := ssl c;
     browser_host := browser_host c; bind_address := bind_address c;
     server_host := server_host c; doc_root := r |}.

(** [TestEnvironment.build_config], over the [config.update] method of the
    builder.  The override document is taken as parsed; the statements follow
    the method line by line. *)
Definition build_config_with
    (config_update : override_doc -> ConfigBuilder -> ConfigBuilder)
    (self : TestEnvironment) (src : ConfigSource)
    (h : gmap loc dict) : result ConfigBuilder :=
  match serve_path (test_paths self) with
  | Raise e => Raise e
  | Ok root =>
      let config := new_builder src in
      let ports := default_ports in
      let ports := if enable_quic self
                   then <["quic-transport" := [10000]]> ports else ports in
      let config := set_ports ports config in
      let config := match config_json src root with
                    | Some override_obj => config_update override_obj config
                    | None => config
                    end in
      let config := set_check_subdomains (VBool false) config in
      let ssl_config := ssl_config self in
      let ssl_config :=
        <["encrypt_after_connect" :=
            dict_get (options self) "encrypt_after_connect" (VBool false) h]> ssl_config in
      let config := set_ssl ssl_config config in
      let config := if dict_mem (options self) "browser_host" h
                    then set_browser_host (dict_get (options self) "browser_host" VNone h) config
                    else config in
      let config := if dict_mem (options self) "bind_address" h
                    then set_bind_address (dict_get (options self) "bind_address" VNone h) config
                    else config in
      let config := set_server_host (dict_get (options self) "server_host" VNone h) config in
      let config := set_doc_root root config in
      Ok config
  end.

Definition build_config := build_config_with update.

(** ** The readiness poller *)

Definition is_nil {A} (l : list A) : bool :=
  match l with [] => true | _ => false end.

(** [TestEnvironment.test_servers] *)
Definition test_servers (self : TestEnvironment)
  : M World (list (string * Z) * list (value * Z)) :=
  config <- from_option (TypeError "'NoneType' object is not subscriptable") (config self) ;;
  let host := server_host config in
  servers <- from_option
    (AttributeError "'TestEnvironment' object has no attribute 'servers'") (servers self) ;;
  failed <- fold_each servers [] (fun '(scheme, servers) failed =>
    fold_each servers failed (fun '(port, server) failed =>
      a <- is_alive server ;;
      ret (if negb a then failed ++ [(scheme, port)] else failed))) ;;
  pending <-
    (if is_nil failed && truthy (test_server_port self) then
       fold_each servers [] (fun '(scheme, servers) pending =>
         if String.eqb scheme "quic-transport" then ret pending
         else fold_each servers pending (fun '(port, server) pending =>
           connected <- try_connect host port ;;
           ret (if connected then pending else pending ++ [(host, port)])))
     else ret []) ;;
  ret (failed, pending).

Definition total_sleep_ms : N := 30000.
Definition each_sleep_ms : N := 500.

(** ["%s:%s" % item] *)
Definition format_item (item : string * Z) : string :=
  fst item +:+ ":" +:+ pretty (snd item).

Definition failed_message (failed : list (string * Z)) : string :=
  "Servers failed to start: " +:+ String.concat ", " (map format_item failed).

(** How the [while] loop of [ensure_started] is left. *)
Inductive loop_exit :=
| Returned                                         (* return *)
| Fell (failed : option (list (string * Z))).      (* break, or the condition is false *)

(** The [while] loop of [ensure_started]; [failed] is the local variable,
    unbound ([None]) before the first poll.  The result is [None] when the
    fuel does not suffice. *)
Fixpoint ensure_started_loop (fuel : nat) (self : TestEnvironment) (end_time : N)
    (failed : option (list (string * Z))) : M World (option loop_exit) :=
  match fuel with
  | O => ret None
  | S fuel' =>
      now <- time_time ;;
      if (now <? end_time)%N then
        polled <- test_servers self ;;
        let '(failed, pending) := polled in
        if negb (is_nil failed) then ret (Some (Fell (Some failed)))
        else if is_nil pending then ret (Some Returned)
        else time_sleep each_sleep_ms ;;; ensure_started_loop fuel' self end_time (Some failed)
      else ret (Some (Fell failed))
  end.

Definition ensure_started_fuel (fuel : nat) (self : TestEnvironment) : M World (option unit) :=
  now <- time_time ;;
  let end_time := (now + total_sleep_ms)%N in
  exit <- ensure_started_loop fuel self end_time None ;;
  match exit with
  | None => ret None
  | Some Returned => ret (Some tt)
  | Some (Fell None) => raise (UnboundLocalError "failed")
  | Some (Fell (Some failed)) => raise (EnvironmentError (failed_message failed))
  end.

(** [TestEnvironment.ensure_started]: the loop sleeps half a second per
    round and stops after thirty, so 61 evaluations of its condition
    suffice (see [ensure_started_total]). *)
Definition ensure_started (self : TestEnvironment) : M World (option unit) :=
  ensure_started_fuel 61 self.

(** ** The routes *)

(** The calls [get_routes] makes on the [serve.RoutesBuilder] it creates. *)
Inductive builder_call :=
| AddStatic (path : string) (format_args : option (list (string * value)))
    (content_type : string) (route : string) (headers : list (string * string))
| AddHandler (method : string) (route : string) (data : string) (content_type : string)
| AddMountPoint (url_base : string) (path : string)
| DelMountpointRoutes (key : string)       (* del route_builder.mountpoint_routes[key] *)
| GetRoutes.

Definition cache_headers : list (string * string) := [("Cache-Control", "max-age=3600")].

(** The five static routes, before their paths are resolved. *)
Definition static_routes (self : TestEnvironment) (rs : RouteSource) (report : string)
  : list (string * option (list (string * value)) * string * string) :=
  [ ("testharness_runner.html", Some [], "text/html", "/testharness_runner.html");
    ("print_reftest_runner.html", Some [], "text/html", "/print_reftest_runner.html");
    (pdf_js rs, None, "text/javascript", "/_pdf_js/pdf.js");
    (pdf_worker_js rs, None, "text/javascript", "/_pdf_js/pdf.worker.js");
    (report,
     Some [ ("output", pause_after_test rs);
            ("timeout_multiplier", testharness_timeout_multipler rs);
            ("explicit_timeout",
             VStr (match debug_info self with Some _ => "true" | None => "false" end));
            ("debug", VStr (if truthy (debug_test rs) then "true" else "false")) ],
     "text/javascript;charset=utf8",
     "/resources/testharnessreport.js") ].

(** The loop over [self.test_paths.items()]: the mount points added, or the
    key error of the first entry without a tests path. *)
Fixpoint mount_test_paths (items : list (string * gmap string string))
  : result (list builder_call) :=
  match items with
  | [] => Ok []
  | (url_base, paths) :: items' =>
      if String.eqb url_base "/" then mount_test_paths items'
      else match paths !! "tests_path" with
           | None => Raise (KeyError "tests_path")
           | Some tests_path =>
               match mount_test_paths items' with
               | Ok calls => Ok (AddMountPoint url_base tests_path :: calls)
               | Raise e => Raise e
               end
           end
  end.

(** [TestEnvironment.get_routes]: the calls made on the builder, the last
    of which, [get_routes()], gives the result. *)
Definition get_routes (self : TestEnvironment) (rs : RouteSource) (h : gmap loc dict)
  : result (list builder_call) :=
  match dict_get (options self) "testharnessreport" (VStr "testharnessreport.js") h with
  | VStr report =>
      let statics :=
        map (fun '(path, format_args, content_type, route) =>
               AddStatic (resolve rs path) format_args content_type route cache_headers)
            (static_routes self rs report) in
      let data := "" in
      let data := data +:+ testdriver_js rs in
      let data := data +:+ testdriver_extra_js rs in
      let handler := AddHandler "GET" "/resources/testdriver.js" data "text/javascript" in
      match mount_test_paths (test_paths_items rs) with
      | Raise e => Raise e
      | Ok mounts =>
          let root :=
            if existsb (String.eqb "/") (map fst (test_paths_items rs)) then []
            else [DelMountpointRoutes "/"] in
          let gen :=
            match mojojs_path rs with
            | Some p => if String.eqb p "" then [] else [AddMountPoint "/gen/" p]
            | None => []
            end in
          Ok (statics ++ [handler] ++ mounts ++ root ++ gen ++ [GetRoutes])
      end
  | _ => Raise (TypeError "expected str, bytes or os.PathLike object")
  end.

(** ** Entering and leaving the environment *)

Definition St : Type := TestEnvironment * World.

Definition liftW {A} (m : M World A) : M St A :=
  fun '(self, w) => let '(r, w') := m w in (r, (self, w')).

Definition get_self : M St TestEnvironment := gets fst.
Definition set_self (f : TestEnvironment -> TestEnvironment) : M St unit :=
  modify (fun '(self, w) => (f self, w)).

Definition with_servers (v : option fleet) (e : TestEnvironment) : TestEnvironment :=
  {| test_paths := test_paths e; servers := v; config_ctx := config_ctx e;
     config := config e; test_server_port := test_server_port e;
     debug_info := debug_info e; options := options e; env_extras := env_extras e;
     env_extras_cms := env_extras_cms e; ssl_config := ssl_config e;
     enable_quic := enable_quic e;
     logging_thread_started := logging_thread_started e |}.
Definition with_config_ctx (v : option ConfigBuilder) (e : TestEnvironment) : TestEnvironment :=
  {| test_paths := test_paths e; servers := servers e; config_ctx := v;
     config := config e; test_server_port := test_server_port e;
     debug_info := debug_info e; options := options e; env_extras := env_extras e;
     env_extras_cms := env_extras_cms e; ssl_config := ssl_config e;
     enable_quic := enable_quic e;
     logging_thread_started := logging_thread_started e |}.
Definition with_config (v : option ConfigBuilder) (e : TestEnvironment) : TestEnvironment :=
  {| test_paths := test_paths e; servers := servers e; config_ctx := config_ctx e;
     config := v; test_server_port := test_server_port e;
     debug_info := debug_info e; options := options e; env_extras := env_extras e;
     env_extras_cms := env_extras_cms e; ssl_config := ssl_config e;
     enable_quic := enable_quic e;
     logging_thread_started := logging_thread_started e |}.
Definition with_env_extras_cms (v : option (list nat)) (e : TestEnvironment) : TestEnvironment :=
  {| test_paths := test_paths e; servers := servers e; config_ctx := config_ctx e;
     config := config e; test_server_port := test_server_port e;
     debug_info := debug_info e; options := options e; env_extras := env_extras e;
     env_extras_cms := v; ssl_config := ssl_config e;
     enable_quic := enable_quic e;
     logging_thread_started := logging_thread_started e |}.

Definition with_logging_thread_started (v : bool) (e : TestEnvironment) : TestEnvironment :=
  {| test_paths := test_paths e; servers := servers e; config_ctx := config_ctx e;
     config := config e; test_server_port := test_server_port e;
     debug_info := debug_info e; options := options e; env_extras := env_extras e;
     env_extras_cms := env_extras_cms e; ssl_config := ssl_config e;
     enable_quic := enable_quic e; logging_thread_started := v |}.

Definition nested_msg : string := "A TestEnvironment object cannot be nested".
Definition thread_msg : string := "threads can only be started once".

(** A computation that is the result of a function of the module. *)
Definition from_result {S A} (r : result A) : M S A := fun s => (r, s).

(** [ProxyLoggingContext.__enter__]: [self.logging_thread.start()].  A thread
    object can be started once; [start()] on a thread that was started
    raises a [RuntimeError].  The first start may fail as the oracle of the
    world says. *)
Definition logging_ctx_enter : M St unit :=
  self <- get_self ;;
  if logging_thread_started self then
    liftW (modify (log (EvEnter ServerLoggingCtx))) ;;;
    raise (RuntimeError thread_msg)
  else
    liftW (call (EvEnter ServerLoggingCtx)) ;;;
    set_self (with_logging_thread_started true).

Definition with_test_paths_items (items : list (string * gmap string string))
    (rs : RouteSource) : RouteSource :=
  {| test_paths_items := items; pause_after_test := pause_after_test rs;
     testharness_timeout_multipler := testharness_timeout_multipler rs;
     debug_test := debug_test rs; mojojs_path := mojojs_path rs;
     resolve := resolve rs; pdf_js := pdf_js rs; pdf_worker_js := pdf_worker_js rs;
     testdriver_js := testdriver_js rs; testdriver_extra_js := testdriver_extra_js rs |}.

(** What [self.get_routes()] reads when [__enter__] calls it: the entries
    of [self.test_paths], and the rest from the world.  The order in which
    [items()] lists the entries is not kept in [test_paths]; whether
    [get_routes] raises, and what, does not depend on it. *)
Definition routes_of (self : TestEnvironment) (w : World) : RouteSource :=
  with_test_paths_items (map_to_list (test_paths self)) (route_src w).

(** [self.env_extras_cms.append(cm)] *)
Definition append_cm (cm : nat) (e : TestEnvironment) : TestEnvironment :=
  with_env_extras_cms (option_map (fun l => l ++ [cm]) (env_extras_cms e)) e.

(** [TestEnvironment.__enter__].  The call [self.get_routes()] is the event
    [EvGetRoutes], for what it does outside the module (the route builder,
    the files it reads), followed by the method as modelled, which may raise
    itself; its result goes to [serve.start].  The configuration that
    [self.config_ctx.__enter__()] returns is taken to be the one the builder
    holds. *)
Definition __enter__ : M St unit :=
  logging_ctx_enter ;;;
  self <- get_self ;;
  w <- gets snd ;;
  match build_config self (config_src w) (heap w) with
  | Raise e => raise e
  | Ok cfg =>
      set_self (with_config_ctx (Some cfg)) ;;;
      liftW (call (EvEnter ConfigCtx)) ;;;
      set_self (with_config (Some cfg)) ;;;
      liftW (call (EvEnter StashRes)) ;;;
      liftW (call (EvEnter CacheManager)) ;;;
      self <- get_self ;;
      match env_extras_cms self with
      | Some _ => raise (AssertionError nested_msg)
      | None =>
          set_self (with_env_extras_cms (Some [])) ;;;
          for_each (env_extras self) (fun env =>
            liftW (call (EvExtraNew env (options self))) ;;;
            liftW (call (EvEnter (ExtraCm env))) ;;;
            set_self (append_cm env)) ;;;
          liftW (call EvGetRoutes) ;;;
          w <- gets snd ;;
          routes <- from_result (get_routes self (routes_of self w) (heap w)) ;;
          liftW (call EvServeStart) ;;;
          w <- gets snd ;;
          set_self (with_servers (Some (started w))) ;;;
          (if truthy (dict_get (options self) "supports_debugger" VNone (heap w))
              && match debug_info self with
                 | Some d => interactive d
                 | None => false
                 end
           then liftW (call (EvSignal SIG_IGN))
           else ret tt)
      end
  end.

(** [TestEnvironment.__exit__] *)
Definition __exit__ : M St unit :=
  liftW (call (EvSignal SIG_DFL)) ;;;
  self <- get_self ;;
  servers <- from_option
    (AttributeError "'TestEnvironment' object has no attribute 'servers'") (servers self) ;;
  for_each servers (fun '(scheme, servers) =>
    for_each servers (fun '(port, server) =>
      liftW (call (EvKill scheme port server)))) ;;;
  cms <- from_option (TypeError "'NoneType' object is not iterable") (env_extras_cms self) ;;
  for_each cms (fun cm => liftW (call (EvExit (ExtraCm cm)))) ;;;
  set_self (with_env_extras_cms None) ;;;
  liftW (call (EvExit CacheManager)) ;;;
  liftW (call (EvExit StashRes)) ;;;
  from_option (AttributeError "'NoneType' object has no attribute '__exit__'")
    (config_ctx self) ;;;
  liftW (call (EvExit ConfigCtx)) ;;;
  liftW (call (EvExit ServerLoggingCtx)).

(** ** The logging proxy *)

Inductive level := CRITICAL | ERROR | WARNING | INFO | DEBUG.

Record LogRecord := {
  action : string;
  lvl : level;
  message : string;
}.

Definition set_level (l : level) (data : LogRecord) : LogRecord :=
  {| action := action data; lvl := l; message := message data |}.

Definition level_eqb (a b : level) : bool :=
  match a, b with
  | CRITICAL, CRITICAL | ERROR, ERROR | WARNING, WARNING | INFO, INFO | DEBUG, DEBUG => true
  | _, _ => false
  end.

(** Modelled from the spec: the severity order of the structured-logging
    subsystem (mozlog is not part of the sources); critical is the most
    severe, debug the least, and "info-and-above" are the levels at least
    as severe as info. *)
Definition level_rank (l : level) : nat :=
  match l with
  | CRITICAL => 0 | ERROR => 1 | WARNING => 2 | INFO => 3 | DEBUG => 4
  end%nat.

(** Modelled from the spec: [handlers.LogLevelFilter(inner, level)] of mozlog,
    which is not part of the sources: a filter that only admits records of
    severity [level] and above, and hands them to [inner]. *)
Definition LogLevelFilter (inner : LogRecord -> option LogRecord) (l : level)
  : LogRecord -> option LogRecord :=
  fun data => if (level_rank (lvl data) <=? level_rank l)%nat then inner data else None.

(** Modelled from the spec: [LogLevelRewriter(inner, from_levels, to_level)]
    of wptlogging, which is not part of the sources: records whose severity
    is one of [from_levels] get severity [to_level]; every record is then
    handed to [inner]. *)
Definition LogLevelRewriter (inner : LogRecord -> option LogRecord)
    (from_levels : list level) (to_level : level) : LogRecord -> option LogRecord :=
  fun data =>
    inner (if existsb (level_eqb (lvl data)) from_levels then set_level to_level data else data).

(** The filter that [ProxyLoggingContext.__init__] installs as
    [server_logger.component_filter]. *)
Definition component_filter : LogRecord -> option LogRecord :=
  let log_filter := LogLevelFilter (fun x => Some x) INFO in
  let log_filter := LogLevelRewriter log_filter [ERROR] WARNING in
  log_filter.

(** The queue holds records and the sentinel [None]. *)
Definition LogQueue := list (option LogRecord).

(** [LoggerProxy.critical/error/warning/info/debug]: the inner
    [_QueueLogger] turns the call into a record and [_handle_log] puts it
    on the queue. *)
Definition proxy_log (l : level) (msg : string) (queue : LogQueue) : LogQueue :=
  queue ++ [Some {| action := "log"; lvl := l; message := msg |}].

Definition critical := proxy_log CRITICAL.
Definition error := proxy_log ERROR.
Definition warning := proxy_log WARNING.
Definition info := proxy_log INFO.
Definition debug := proxy_log DEBUG.

(** [ProxyLoggingContext.__exit__] puts the sentinel on the queue. *)
Definition put_sentinel (queue : LogQueue) : LogQueue := queue ++ [None].

(** Modelled from the spec: the structured logger hands a record to its
    handlers after the component filter (mozlog is not part of the sources). *)
Definition log_raw (data : LogRecord) (received : list LogRecord) : list LogRecord :=
  match component_filter data with
  | Some data' => received ++ [data']
  | None => received
  end.

(** Modelled from the spec: [proxy.LogQueueThread.run] of mozlog, which is not
    part of the sources: the consumer reads records until the sentinel
    arrives and forwards each to the structured logger. *)
Fixpoint run (queue : LogQueue) (received : list LogRecord) : list LogRecord :=
  match queue with
  | [] => received
  | None :: _ => received
  | Some data :: queue' => run queue' (log_raw data received)
  end.

(** Emitting a sequence of messages through the handle, then leaving the
    context. *)
Definition emit_all (msgs : list (level * string)) : LogQueue :=
  put_sentinel (fold_left (fun q m => proxy_log (fst m) (snd m) q) msgs []).

Definition delivered (msgs : list (level * string)) : list LogRecord :=
  run (emit_all msgs) [].

(** * Auxiliary functions for the statements *)

(** The handles of one scheme that are dead at the time of world [w]. *)
Definition dead_of (w : World) (scheme : string) (servers : list (Z * handle))
  : list (string * Z) :=
  flat_map (fun '(port, server) =>
    if alive w (clock w) server then [] else [(scheme, port)]) servers.

Definition dead (w : World) (f : fleet) : list (string * Z) :=
  flat_map (fun '(scheme, servers) => dead_of w scheme servers) f.

(** The world after the calls [evs] were recorded. *)
Definition logs (evs : list event) (w : World) : World :=
  {| clock := clock w; trace := trace w ++ evs; heap := heap w;
     alive := alive w; accepts := accepts w; probe_ms := probe_ms w;
     raises := raises w; started := started w;
     config_src := config_src w; route_src := route_src w |}.

(** Making the calls [evs] one after the other, stopping at the first that
    raises: the calls that were made, and the exception if there is one. *)
Fixpoint attempt (raises : event -> option exn) (evs : list event)
  : list event * option exn :=
  match evs with
  | [] => ([], None)
  | ev :: evs' =>
      match raises ev with
      | Some e => ([ev], Some e)
      | None => let '(made, r) := attempt raises evs' in (ev :: made, r)
      end
  end.

Definition to_result (o : option exn) : result unit :=
  match o with
  | Some e => Raise e
  | None => Ok tt
  end.

Definition kill_events (f : fleet) : list event :=
  flat_map (fun '(scheme, servers) =>
    map (fun '(port, server) => EvKill scheme port server) servers) f.

Definition extras_exit_events (cms : list nat) : list event :=
  map (fun cm => EvExit (ExtraCm cm)) cms.

Definition extras_enter_events (options : loc) (extras : list nat) : list event :=
  flat_map (fun env => [EvExtraNew env options; EvEnter (ExtraCm env)]) extras.

(** The calls of [__exit__], in program order. *)
Definition exit_events (f : fleet) (cms : list nat) : list event :=
  [EvSignal SIG_DFL] ++ kill_events f ++ extras_exit_events cms ++
  [EvExit CacheManager; EvExit StashRes; EvExit ConfigCtx; EvExit ServerLoggingCtx].

(** [self.options.get("supports_debugger") and self.debug_info and
    self.debug_info.interactive] *)
Definition wants_debugger (self : TestEnvironment) (h : gmap loc dict) : bool :=
  truthy (dict_get (options self) "supports_debugger" VNone h)
  && match debug_info self with
     | Some d => interactive d
     | None => false
     end.

(** The calls of [__enter__] up to the assertion, and after it. *)
Definition enter_events_before : list event :=
  [EvEnter ServerLoggingCtx; EvEnter ConfigCtx; EvEnter StashRes; EvEnter CacheManager].

Definition enter_events_after (self : TestEnvironment) (h : gmap loc dict) : list event :=
  extras_enter_events (options self) (env_extras self) ++ [EvGetRoutes; EvServeStart] ++
  (if wants_debugger self h then [EvSignal SIG_IGN] else []).

Definition enter_events (self : TestEnvironment) (h : gmap loc dict) : list event :=
  enter_events_before ++ enter_events_after self h.

(** The calls after the assertion, in two parts: up to [self.get_routes()],
    and from [serve.start] on. *)
Definition enter_events_extras (self : TestEnvironment) : list event :=
  extras_enter_events (options self) (env_extras self) ++ [EvGetRoutes].

Definition enter_events_start (self : TestEnvironment) (h : gmap loc dict) : list event :=
  EvServeStart :: (if wants_debugger self h then [EvSignal SIG_IGN] else []).

(** What [__enter__] does from world [w]: its result and the calls it makes.
    The calls are those of [enter_events], one after the other, up to the
    first that raises; between them [__enter__] fails by itself when the
    logging thread was started before, when [build_config] raises, when the
    object is entered already, and when [get_routes] raises. *)
Definition enter_outcome (self : TestEnvironment) (w : World) : result unit * list event :=
  if logging_thread_started self
  then (Raise (RuntimeError thread_msg), [EvEnter ServerLoggingCtx])
  else
    match raises w (EvEnter ServerLoggingCtx),
          build_config self (config_src w) (heap w) with
    | Some e, _ => (Raise e, [EvEnter ServerLoggingCtx])
    | None, Raise e => (Raise e, [EvEnter ServerLoggingCtx])
    | None, Ok _ =>
        let a := attempt (raises w) enter_events_before in
        match a.2, env_extras_cms self with
        | Some e, _ => (Raise e, a.1)
        | None, Some _ => (Raise (AssertionError nested_msg), enter_events_before)
        | None, None =>
            let b := attempt (raises w) (enter_events_extras self) in
            match b.2, get_routes self (routes_of self w) (heap w) with
            | Some e, _ => (Raise e, enter_events_before ++ b.1)
            | None, Raise e =>
                (Raise e, enter_events_before ++ enter_events_extras self)
            | None, Ok _ =>
                let c := attempt (raises w) (enter_events_start self (heap w)) in
                (to_result c.2,
                 enter_events_before ++ enter_events_extras self ++ c.1)
            end
        end
    end.

(** The errors that [__enter__] raises by itself: the logging thread was
    started before, [build_config] or [get_routes] raises, the object is
    entered already. *)
Definition enter_own_error (self : TestEnvironment) (w : World) (e : exn) : Prop :=
  (logging_thread_started self = true /\ e = RuntimeError thread_msg) \/
  build_config self (config_src w) (heap w) = Raise e \/
  (is_Some (env_extras_cms self) /\ e = AssertionError nested_msg) \/
  get_routes self (routes_of self w) (heap w) = Raise e.

(** The object after a successful [__enter__]. *)
Definition entered (self : TestEnvironment) (cfg : ConfigBuilder) (f : fleet)
  : TestEnvironment :=
  with_servers (Some f)
    (with_env_extras_cms (Some (env_extras self))
       (with_config (Some cfg)
          (with_config_ctx (Some cfg) (with_logging_thread_started true self)))).

(** A call that releases something. *)
Definition is_release (ev : event) : bool :=
  match ev with
  | EvExit _ | EvKill _ _ _ => true
  | _ => false
  end.

(** The resources acquired, and released, by the calls of a trace. *)
Definition acquired (evs : list event) : list resource :=
  omap (fun ev => match ev with
                  | EvEnter r => Some r
                  | EvServeStart => Some Fleet
                  | _ => None
                  end) evs.

Definition released (evs : list event) : list resource :=
  omap (fun ev => match ev with
                  | EvExit r => Some r
                  | EvKill _ _ _ => Some Fleet
                  | _ => None
                  end) evs.

(** *** A concrete environment *)

Definition example_paths : gmap string (gmap string string) :=
  {[ "/" := {[ "tests_path" := "/wpt" ]} ]}.

Definition example_builder : ConfigBuilder :=
  {| ports := ∅; check_subdomains := VBool true; ssl := ∅;
     browser_host := VStr "web-platform.test"; bind_address := VBool true;
     server_host := VNone; doc_root := "" |}.

Definition example_options : dict :=
  <["server_host" := VStr "127.0.0.1"]> (<["test_server_port" := VBool true]>
    (<["bind_address" := VBool false]> ∅)).

Definition example_fleet : fleet :=
  [("http", [(8000, 0%nat); (8001, 1%nat)]); ("https", [(8443, 2%nat)])].

(** What [get_routes] reads besides the test paths [items]. *)
Definition example_routes (items : list (string * gmap string string)) : RouteSource :=
  {| test_paths_items := items; pause_after_test := VBool false;
     testharness_timeout_multipler := VInt 1; debug_test := VBool false;
     mojojs_path := Some "/out/gen";
     resolve := fun path => "/wptrunner/" +:+ path;
     pdf_js := "../../third_party/pdf_js/pdf.js";
     pdf_worker_js := "../../third_party/pdf_js/pdf.worker.js";
     testdriver_js := "/* testdriver */"; testdriver_extra_js := "/* extra */" |}.

(** A world at time 0 with the options dict at location 0, where the servers
    are alive as [al] says, ports accept connections as [acc] says, and
    collaborators raise as [rs] says. *)
Definition example_world (al : N -> handle -> bool) (acc : N -> value -> Z -> bool)
    (rs : event -> option exn) (override : option override_doc) : World :=
  {| clock := 0; trace := []; heap := {[ 0%nat := example_options ]};
     alive := al; accepts := acc; probe_ms := 100; raises := rs;
     started := example_fleet;
     config_src := {| new_builder := example_builder;
                      config_json := fun _ => override |};
     route_src := example_routes [] |}.

(** [env = TestEnvironment(...)] with the options dict at location 0.  With a
    dict for [options] the constructor returns; [unconstructed] stands for
    the object that does not exist when it raises. *)
Definition unconstructed : TestEnvironment :=
  {| test_paths := ∅; servers := None; config_ctx := None; config := None;
     test_server_port := VNone; debug_info := None; options := 0%nat;
     env_extras := []; env_extras_cms := None; ssl_config := ∅;
     enable_quic := false; logging_thread_started := false |}.

Definition construct (extras : list nat) (quic : bool) (w : World) : St :=
  match __init__ example_paths None (Some 0%nat) ∅ extras quic w with
  | (Ok self, w') => (self, w')
  | (Raise _, w') => (unconstructed, w')
  end.

(** The constructor followed by [env.__enter__()]. *)
Definition construct_and_enter (extras : list nat) (quic : bool) (w : World)
  : result unit * St :=
  __enter__ (construct extras quic w).

Definition never_raises : event -> option exn := fun _ => None.

(** [serve.start] cannot start the fleet. *)
Definition start_fails : event -> option exn :=
  fun ev => match ev with
            | EvServeStart => Some (CollaboratorError "serve.start")
            | _ => None
            end.

(** Leaving the first extra raises. *)
Definition extra_exit_fails : event -> option exn :=
  fun ev => match ev with
            | EvExit (ExtraCm 0) => Some (CollaboratorError "extra.__exit__")
            | _ => None
            end.

Definition always_alive : N -> handle -> bool := fun _ _ => true.
Definition never_accepts : N -> value -> Z -> bool := fun _ _ _ => false.
Definition always_accepts : N -> value -> Z -> bool := fun _ _ _ => true.

(** The outcome [out] of a method that was to make the calls [evs] from world
    [w]: either no call raises and all of them are made, or the first call
    that raises ends the method: its exception propagates and the calls after
    it are not made. *)
Definition stops_at_first_failure (w : World) (evs : list event)
    (out : result unit * St) : Prop :=
  (out.1 = Ok tt /\ trace out.2.2 = trace w ++ evs /\
   Forall (fun ev => raises w ev = None) evs)
  \/
  (exists e made ev rest,
     out.1 = Raise e /\ evs = made ++ ev :: rest /\
     raises w ev = Some e /\ Forall (fun ev' => raises w ev' = None) made /\
     trace out.2.2 = trace w ++ made ++ [ev]).

(** The example environment with two extras and no QUIC, entered in a world
    where leaving the first extra raises. *)
Definition world_extra_exit_fails : World :=
  example_world always_alive always_accepts extra_exit_fails None.

Definition entered_extra_exit_fails : St :=
  (construct_and_enter [0%nat; 1%nat] false world_extra_exit_fails).2.

(** The example environment with one extra, constructed in a world where
    the server fleet cannot be started. *)
Definition world_start_fails : World :=
  example_world always_alive always_accepts start_fails None.

Definition constructed_start_fails : St :=
  construct [0%nat] false world_start_fails.

(** The example environment with two extras, entered in a world where
    nothing raises; and a second object constructed in the world that the
    first one is active in. *)
Definition quiet_world : World :=
  example_world always_alive always_accepts never_raises None.

Definition constructed_quiet : St :=
  construct [0%nat; 1%nat] false quiet_world.

Definition entered_quiet : St := (__enter__ constructed_quiet).2.

Definition second_instance : St :=
  construct [] true entered_quiet.2.

(** One scope of the object [self] from world [w]: [__enter__], then
    [__exit__].  The resources are acquired in the order logging proxy,
    config scope, stash, cache manager, extras, fleet; then every server of
    the fleet is killed, every extra is left, and the cache manager, the
    stash, the config scope and the logging proxy are left: group by group
    the reverse of the order of acquisition. *)
Definition scope_in_order (self : TestEnvironment) (w : World) : Prop :=
  exists evs1 evs2 lefts,
    trace (__enter__ (self, w)).2.2 = trace w ++ evs1 /\
    trace (__exit__ (__enter__ (self, w)).2).2.2 = (trace w ++ evs1) ++ evs2 /\
    acquired evs1
    = [ServerLoggingCtx; ConfigCtx; StashRes; CacheManager] ++
      map ExtraCm (env_extras self) ++ [Fleet] /\
    servers (__enter__ (self, w)).2.1 = Some (started w) /\
    (forall scheme svs port server,
       (scheme, svs) ∈ started w -> (port, server) ∈ svs ->
       EvKill scheme port server ∈ evs2) /\
    lefts ≡ₚ map ExtraCm (env_extras self) /\
    released evs2
    = replicate (length (kill_events (started w))) Fleet ++ lefts ++
      rev [ServerLoggingCtx; ConfigCtx; StashRes; CacheManager].

(** The five schemes that are always served. *)
Definition baseline_schemes : list string := ["http"; "https"; "ws"; "wss"; "h2"].

(** [{"ports": {"quic-transport": [4433]}}] *)
Definition override_quic : override_doc :=
  {| ov_ports := Some {[ "quic-transport" := [4433] ]}; ov_check_subdomains := None;
     ov_ssl := None; ov_browser_host := None; ov_bind_address := None;
     ov_server_host := None; ov_doc_root := None |}.

(** [{"ports": {"http": [9999]}}] *)
Definition override_http : override_doc :=
  {| ov_ports := Some {[ "http" := [9999] ]}; ov_check_subdomains := None;
     ov_ssl := None; ov_browser_host := None; ov_bind_address := None;
     ov_server_host := None; ov_doc_root := None |}.

(** [{"check_subdomains": true}] *)
Definition override_check_subdomains : override_doc :=
  {| ov_ports := None; ov_check_subdomains := Some (VBool true); ov_ssl := None;
     ov_browser_host := None; ov_bind_address := None; ov_server_host := None;
     ov_doc_root := None |}.

Definition source_with (d : override_doc) : ConfigSource :=
  {| new_builder := example_builder; config_json := fun _ => Some d |}.

(** The outcome [out] of constructing a [TestEnvironment] in world [w] with
    the options dict object at [l], whose content was [d]: the key
    ["test_server_port"] was taken out of that object and nothing else
    changed; the object itself (not a copy) is kept in [self.options], so it
    is what [__enter__] hands to every extra and what [build_config] reads. *)
Definition pops_test_server_port (w : World) (l : loc) (d : dict)
    (out : result TestEnvironment * World) : Prop :=
  exists self,
    out.1 = Ok self /\
    test_server_port self = default (VBool true) (d !! "test_server_port") /\
    options self = l /\
    heap out.2 !! l = Some (delete "test_server_port" d) /\
    delete "test_server_port" d !! "test_server_port" = None /\
    (forall k, k <> "test_server_port" -> delete "test_server_port" d !! k = d !! k) /\
    (forall l', l' <> l -> heap out.2 !! l' = heap w !! l') /\
    heap (__enter__ (self, out.2)).2.2 = heap out.2 /\
    (forall i o,
       EvExtraNew i o ∈ drop (length (trace out.2)) (trace (__enter__ (self, out.2)).2.2) ->
       o = l) /\
    ((__enter__ (self, out.2)).1 = Ok tt ->
     (forall i, i ∈ env_extras self ->
        EvExtraNew i l ∈ trace (__enter__ (self, out.2)).2.2) /\
     exists cfg,
       build_config self (config_src out.2) (heap out.2) = Ok cfg /\
       config (__enter__ (self, out.2)).2.1 = Some cfg) /\
    (forall src h1 h2, h1 !! l = h2 !! l ->
       build_config self src h1 = build_config self src h2).

(** What the structured logger receives for one message sent through the
    proxy. *)
Definition record_of (m : level * string) : LogRecord :=
  {| action := "log"; lvl := fst m; message := snd m |}.

Definition forwarded (m : level * string) : list LogRecord :=
  match fst m with
  | DEBUG => []
  | ERROR => [set_level WARNING (record_of m)]
  | _ => [record_of m]
  end.

(** The example environment without extras, entered in a world where the
    servers are alive but no port ever accepts a connection; and in a world
    where the https server (handle 2) is dead. *)
Definition world_never_accepts : World :=
  example_world always_alive never_accepts never_raises None.

Definition entered_never_accepts : St :=
  (construct_and_enter [] false world_never_accepts).2.

Definition https_dead : N -> handle -> bool :=
  fun _ server => negb (Nat.eqb server 2).

Definition entered_https_dead : St :=
  (construct_and_enter [] false
     (example_world https_dead always_accepts never_raises None)).2.



(** *** The probes of one poll *)

(** The ports a poll connects to: those of every scheme but QUIC, in the
    order of the fleet. *)
Definition probed_ports (f : fleet) : list Z :=
  flat_map (fun '(scheme, servers) =>
    if String.eqb scheme "quic-transport" then [] else map fst servers) f.

(** The calls of the probes of [ports]: per port a socket is made, given
    its timeout, connected and closed. *)
Definition probe_events (host : value) (ports : list Z) : list event :=
  flat_map (fun port => [EvSocket; EvSetTimeout 100; EvConnect host port;
                         EvClose host port]) ports.

(** The probes of [ports] that fail, when the first is made at time [t]
    and each takes [probe_ms]. *)
Fixpoint probe_pending (w : World) (host : value) (t : N) (ports : list Z)
  : list (value * Z) :=
  match ports with
  | [] => []
  | port :: ports' =>
      (if accepts w t host port then [] else [(host, port)]) ++
      probe_pending w host (t + probe_ms w)%N ports'
  end.

(** The world after [ms] milliseconds and the calls [evs]. *)
Definition after (ms : N) (evs : list event) (w : World) : World :=
  {| clock := (clock w + ms)%N; trace := trace w ++ evs; heap := heap w;
     alive := alive w; accepts := accepts w; probe_ms := probe_ms w;
     raises := raises w; started := started w;
     config_src := config_src w; route_src := route_src w |}.

(** [isinstance(v, str)] *)
Definition is_str (v : value) : bool :=
  match v with
  | VStr _ => true
  | _ => false
  end.

(** The time the probes of one poll take. *)
Definition poll_ms (w : World) (f : fleet) : N :=
  (probe_ms w * N.of_nat (length (probed_ports f)))%N.

(** The configuration of an entered environment. *)
Definition config_of (s : St) : ConfigBuilder := default example_builder (config s.1).

(** The example environment without extras, entered in a world where the
    servers are alive and the ports accept connections from [t0] on. *)
Definition accepts_from (t0 : N) : N -> value -> Z -> bool :=
  fun t _ _ => (t0 <=? t)%N.

Definition entered_accepts_from (t0 : N) : St :=
  (construct_and_enter [] false
     (example_world always_alive (accepts_from t0) never_raises None)).2.

(** A world at time 0 like [example_world], with the options dict [opts] at
    location 0 and the fleet [fl] for [serve.start] to return. *)
Definition make_world (opts : dict) (fl : fleet) (al : N -> handle -> bool)
    (acc : N -> value -> Z -> bool) (rs : event -> option exn) : World :=
  {| clock := 0; trace := []; heap := {[ 0%nat := opts ]};
     alive := al; accepts := acc; probe_ms := 100; raises := rs;
     started := fl;
     config_src := {| new_builder := example_builder;
                      config_json := fun _ => None |};
     route_src := example_routes [] |}.

(** The example environment entered with [test_server_port] set to [False]
    in a world where no port accepts a connection. *)
Definition entered_port_check_off : St :=
  (construct_and_enter [] false
     (make_world (<["test_server_port" := VBool false]> example_options) example_fleet
        always_alive never_accepts never_raises)).2.

(** The example environment entered without a [server_host] option. *)
Definition entered_no_host : St :=
  (construct_and_enter [] false
     (make_world (delete "server_host" example_options) example_fleet
        always_alive always_accepts never_raises)).2.

(** The example environment entered with a fleet of QUIC servers only. *)
Definition quic_fleet : fleet := [("quic-transport", [(10000, 0%nat)])].

Definition entered_quic_only : St :=
  (construct_and_enter [] true
     (make_world example_options quic_fleet always_alive never_accepts never_raises)).2.

(** The example environment entered in a world where every port accepts. *)
Definition entered_all_ready : St :=
  (construct_and_enter [] false
     (example_world always_alive always_accepts never_raises None)).2.

(** An environment whose test paths have no root entry, and one whose root
    entry has no tests path. *)
Definition without_root : TestEnvironment :=
  {| test_paths := {[ "/extra/" := {[ "tests_path" := "/extra-tests" ]} ]};
     servers := None; config_ctx := None; config := None;
     test_server_port := VBool true; debug_info := None; options := 0%nat;
     env_extras := []; env_extras_cms := None; ssl_config := ∅;
     enable_quic := false; logging_thread_started := false |}.

(** [ssl_config] as the caller passes it, with a stale
    [encrypt_after_connect]. *)
Definition example_ssl : dict :=
  <["type" := VStr "pregenerated"]> (<["encrypt_after_connect" := VBool true]> ∅).

Definition with_ssl : TestEnvironment :=
  {| test_paths := example_paths; servers := None; config_ctx := None; config := None;
     test_server_port := VBool true; debug_info := None; options := 0%nat;
     env_extras := []; env_extras_cms := None; ssl_config := example_ssl;
     enable_quic := false; logging_thread_started := false |}.

(** [{"server_host": "example.org", "doc_root": "/elsewhere", "ssl": {}}] *)
Definition override_hosts : override_doc :=
  {| ov_ports := None; ov_check_subdomains := None; ov_ssl := Some ∅;
     ov_browser_host := Some (VStr "override.test"); ov_bind_address := None;
     ov_server_host := Some (VStr "example.org"); ov_doc_root := Some "/elsewhere" |}.

(** A computation that only adds calls to the trace. *)
Definition extends {A} (m : M St A) : Prop :=
  forall s r s', m s = (r, s') -> trace s.2 `prefix_of` trace s'.2.

(** A world whose options dict has [test_server_port] set to [False]. *)
Definition world_port_check_off : World :=
  make_world (<["test_server_port" := VBool false]> example_options) example_fleet
    always_alive never_accepts never_raises.

(** The calls of [__exit__] before it clears [self.env_extras_cms]. *)
Definition exit_events_early (f : fleet) (cms : list nat) : list event :=
  kill_events f ++ extras_exit_events cms.

(** The example environment entered with two extras in a world where the
    kill of the https server raises. *)
Definition kill_fails : event -> option exn :=
  fun ev => match ev with
            | EvKill _ 8443 _ => Some (CollaboratorError "server.kill")
            | _ => None
            end.

Definition entered_kill_fails : St :=
  (construct_and_enter [0%nat; 1%nat] false
     (example_world always_alive always_accepts kill_fails None)).2.

(** The example environment constructed for an interactive debugger, in a
    world whose options dict has [supports_debugger]. *)
Definition world_debugger : World :=
  make_world (<["supports_debugger" := VBool true]> example_options) example_fleet
    always_alive always_accepts never_raises.

Definition constructed_debugger : St :=
  match __init__ example_paths (Some {| interactive := true |}) (Some 0%nat) ∅
          [0%nat] false world_debugger with
  | (Ok self, w') => (self, w')
  | (Raise _, w') => (unconstructed, w')
  end.

(** A computation that leaves [self.servers] and the oracle of the world as
    they are. *)
Definition keeps_servers {A} (m : M St A) : Prop :=
  forall s r s', m s = (r, s') ->
    servers s'.1 = servers s.1 /\ raises s'.2 = raises s.2.

(** A computation that leaves [self.servers] as it is unless it returns, in
    a world where ignoring the interrupt signal does not raise. *)
Definition keeps_servers_on_failure {A} (m : M St A) : Prop :=
  forall s r s', m s = (r, s') ->
    raises s.2 (EvSignal SIG_IGN) = None ->
    (exists a, r = Ok a) \/ servers s'.1 = servers s.1.

(** *** Reading the calls on the route builder *)

Definition mount_points (calls : list builder_call) : list (string * string) :=
  omap (fun c => match c with
                 | AddMountPoint url_base path => Some (url_base, path)
                 | _ => None
                 end) calls.

Definition static_routes_of (calls : list builder_call)
  : list (string * list (string * string)) :=
  omap (fun c => match c with
                 | AddStatic _ _ _ route headers => Some (route, headers)
                 | _ => None
                 end) calls.

Definition handlers_of (calls : list builder_call) : list (string * string * string) :=
  omap (fun c => match c with
                 | AddHandler method route data _ => Some (method, route, data)
                 | _ => None
                 end) calls.

(** The mount points of the test paths: one per entry other than the root
    that has a tests path, in the order of the entries. *)
Definition test_path_mounts (items : list (string * gmap string string))
  : list (string * string) :=
  flat_map (fun '(url_base, paths) =>
    if String.eqb url_base "/" then []
    else match paths !! "tests_path" with
         | Some p => [(url_base, p)]
         | None => []
         end) items.

Definition gen_mount (rs : RouteSource) : list (string * string) :=
  match mojojs_path rs with
  | Some p => if String.eqb p "" then [] else [("/gen/", p)]
  | None => []
  end.

(** An entry other than the root that has no tests path. *)
Definition lacks_tests_path (entry : string * gmap string string) : Prop :=
  fst entry <> "/" /\ snd entry !! "tests_path" = None.

(** Test paths with a root and one more mount. *)
Definition example_items : list (string * gmap string string) :=
  [ ("/", {[ "tests_path" := "/wpt" ]});
    ("/_mozilla/", {[ "tests_path" := "/mozilla/tests"; "metadata_path" := "/mozilla/meta" ]}) ].

(** The calls of [get_routes] for these test paths and the options of the
    example environment. *)
Definition example_calls : list builder_call :=
  [ AddStatic "/wptrunner/testharness_runner.html" (Some []) "text/html"
      "/testharness_runner.html" cache_headers;
    AddStatic "/wptrunner/print_reftest_runner.html" (Some []) "text/html"
      "/print_reftest_runner.html" cache_headers;
    AddStatic "/wptrunner/../../third_party/pdf_js/pdf.js" None "text/javascript"
      "/_pdf_js/pdf.js" cache_headers;
    AddStatic "/wptrunner/../../third_party/pdf_js/pdf.worker.js" None "text/javascript"
      "/_pdf_js/pdf.worker.js" cache_headers;
    AddStatic "/wptrunner/testharnessreport.js"
      (Some [ ("output", VBool false); ("timeout_multiplier", VInt 1);
              ("explicit_timeout", VStr "false"); ("debug", VStr "false") ])
      "text/javascript;charset=utf8" "/resources/testharnessreport.js" cache_headers;
    AddHandler "GET" "/resources/testdriver.js" "/* testdriver *//* extra */"
      "text/javascript";
    AddMountPoint "/_mozilla/" "/mozilla/tests";
    AddMountPoint "/gen/" "/out/gen";
    GetRoutes ].

(** Test paths without a root, and with an entry that has no tests path. *)
Definition items_without_root : list (string * gmap string string) :=
  [ ("/_mozilla/", {[ "tests_path" := "/mozilla/tests" ]}) ].

Definition items_without_tests_path : list (string * gmap string string) :=
  [ ("/", ∅); ("/_mozilla/", {[ "metadata_path" := "/mozilla/meta" ]}) ].

(** The calls that add a static route or a handler. *)
Definition is_fixed_call (c : builder_call) : bool :=
  match c with
  | AddStatic _ _ _ _ _ | AddHandler _ _ _ _ => true
  | _ => false
  end.

(** The calls of [get_routes] for test paths without a root. *)
Definition calls_without_root : list builder_call :=
  match get_routes constructed_quiet.1 (example_routes items_without_root)
          (heap constructed_quiet.2) with
  | Ok calls => calls
  | Raise _ => []
  end.

(** * Properties *)

(** ** The readiness poller *)

Lemma liveness_inner w scheme servers failed :
  fold_each servers failed (fun '(port, server) failed =>
      a <- is_alive server ;;
      ret (if negb a then failed ++ [(scheme, port)] else failed)) w
  = (Ok (failed ++ dead_of w scheme servers), w).
Proof.
  revert failed. induction servers as [|[port server] servers IH]; intros failed.
  - cbn. by rewrite app_nil_r.
  - cbn [fold_each]. unfold bind at 1. unfold bind at 1. cbn [is_alive ret].
    rewrite IH. cbn [dead_of flat_map].
    destruct (alive w (clock w) server); cbn [negb]; [done|].
    by rewrite <- app_assoc.
Qed.

Lemma liveness_outer w (f : fleet) failed :
  fold_each f failed (fun '(scheme, servers) failed =>
    fold_each servers failed (fun '(port, server) failed =>
      a <- is_alive server ;;
      ret (if negb a then failed ++ [(scheme, port)] else failed))) w
  = (Ok (failed ++ dead w f), w).
Proof.
  revert failed. induction f as [|[scheme servers] f IH]; intros failed.
  - cbn. by rewrite app_nil_r.
  - cbn [fold_each]. unfold bind at 1. rewrite liveness_inner, IH.
    cbn [dead flat_map]. by rewrite <- app_assoc.
Qed.

Lemma dead_of_elem w scheme servers port server :
  (port, server) ∈ servers -> alive w (clock w) server = false ->
  (scheme, port) ∈ dead_of w scheme servers.
Proof.
  intros Hin Hdead. unfold dead_of. apply list_elem_of_In, in_flat_map.
  exists (port, server). split; [by apply list_elem_of_In|].
  rewrite Hdead. by left.
Qed.

Lemma dead_elem w (f : fleet) scheme servers port server :
  (scheme, servers) ∈ f -> (port, server) ∈ servers ->
  alive w (clock w) server = false ->
  (scheme, port) ∈ dead w f.
Proof.
  intros Hf Hin Hdead. unfold dead. apply list_elem_of_In, in_flat_map.
  exists (scheme, servers). split; [by apply list_elem_of_In|].
  apply list_elem_of_In. by eapply dead_of_elem.
Qed.

(** What one poll returns, when the environment has been entered. *)
Lemma test_servers_failed self w cfg f :
  config self = Some cfg -> servers self = Some f -> dead w f <> [] ->
  test_servers self w = (Ok (dead w f, []), w).
Proof.
  intros Hc Hs Hd. unfold test_servers. rewrite Hc, Hs.
  cbn [from_option]. unfold bind at 1. cbn [ret]. unfold bind at 1. cbn [ret].
  unfold bind at 1. rewrite liveness_outer. cbn [app].
  destruct (dead w f) as [|p l] eqn:E; [done|].
  reflexivity.
Qed.

(** C5: when a poll finds a handle that is not alive, the failed list has
    its (scheme, port) pair, the pending list is empty, and the world is left
    as it was: no connection was attempted (nothing was added to the trace)
    and no time was spent. *)
Theorem test_servers_fail_fast self w (f : fleet) scheme svs port server :
  is_Some (config self) -> servers self = Some f ->
  (scheme, svs) ∈ f -> (port, server) ∈ svs ->
  alive w (clock w) server = false ->
  exists failed,
    test_servers self w = (Ok (failed, []), w) /\ (scheme, port) ∈ failed.
Proof.
  intros [cfg Hc] Hs Hf Hin Hdead.
  pose proof (dead_elem w f scheme svs port server Hf Hin Hdead) as Hel.
  exists (dead w f). split; [|done].
  apply (test_servers_failed self w cfg f Hc Hs).
  intros E. rewrite E in Hel. by apply elem_of_nil in Hel.
Qed.

Lemma test_servers_fail_fast_witness :
  is_Some (config entered_https_dead.1) /\
  servers entered_https_dead.1 = Some example_fleet /\
  ("https", [(8443, 2%nat)]) ∈ example_fleet /\
  (8443, 2%nat) ∈ [(8443, 2%nat)] /\
  alive entered_https_dead.2 (clock entered_https_dead.2) 2%nat = false /\
  exists failed,
    test_servers entered_https_dead.1 entered_https_dead.2
    = (Ok (failed, []), entered_https_dead.2) /\
    ("https", 8443) ∈ failed.
Proof.
  assert (H1 : is_Some (config entered_https_dead.1)) by (eexists; reflexivity).
  assert (H2 : ("https", [(8443, 2%nat)]) ∈ example_fleet)
    by (apply list_elem_of_In; right; left; reflexivity).
  assert (H3 : (8443, 2%nat) ∈ [(8443, 2%nat)])
    by (apply list_elem_of_In; left; reflexivity).
  split; [exact H1|]. split; [reflexivity|]. split; [exact H2|].
  split; [exact H3|]. split; [reflexivity|].
  exact (test_servers_fail_fast entered_https_dead.1 entered_https_dead.2
           example_fleet "https" [(8443, 2%nat)] 8443 2%nat H1 eq_refl H2 H3 eq_refl).
Defined.

(** *** Time only moves forward *)








(** *** The loop ends within its fuel *)

Lemma ensure_started_loop_S fuel self end_time failed :
  ensure_started_loop (S fuel) self end_time failed =
  (now <- time_time ;;
   if (now <? end_time)%N then
     polled <- test_servers self ;;
     let '(failed, pending) := polled in
     if negb (is_nil failed) then ret (Some (Fell (Some failed)))
     else if is_nil pending then ret (Some Returned)
     else time_sleep each_sleep_ms ;;; ensure_started_loop fuel self end_time (Some failed)
   else ret (Some (Fell failed))).
Proof. reflexivity. Qed.



(** *** A poll of an entered environment returns *)





Section EnteredEnvironment.

Variables (self : TestEnvironment) (cfg : ConfigBuilder) (f : fleet) (host : string).
Hypothesis Hconfig : config self = Some cfg.
Hypothesis Hservers : servers self = Some f.
Hypothesis Hhost : server_host cfg = VStr host.


(** *** How the loop is left *)





End EnteredEnvironment.

(** C1, where the code departs from it: the servers are alive, no port
    accepts a connection, every poll reports the three ports as pending and
    none as failed; after thirty seconds [ensure_started] raises, and the
    message lists no entry at all, where the specification has the pending ones. *)
Theorem ensure_started_timeout_lists_nothing :
  (test_servers entered_never_accepts.1 entered_never_accepts.2).1
  = Ok ([], [(VStr "127.0.0.1", 8000); (VStr "127.0.0.1", 8001);
             (VStr "127.0.0.1", 8443)]) /\
  (ensure_started entered_never_accepts.1 entered_never_accepts.2).1
  = Raise (EnvironmentError "Servers failed to start: ") /\
  (30000 <= clock (ensure_started entered_never_accepts.1 entered_never_accepts.2).2)%N.
Proof.
  split; [|split].
  - vm_compute. reflexivity.
  - vm_compute. reflexivity.
  - vm_compute. discriminate.
Qed.

(** The other case of C1 holds: a dead server ends the first poll, and the
    message lists it; there was no sleep. *)
Lemma ensure_started_dead_server :
  ensure_started entered_https_dead.1 entered_https_dead.2
  = (Raise (EnvironmentError "Servers failed to start: https:8443"),
     entered_https_dead.2).
Proof. reflexivity. Qed.

(** ** Sequences of collaborator calls *)

Lemma logs_nil w : logs [] w = w.
Proof. destruct w. unfold logs. cbn. by rewrite app_nil_r. Qed.

Lemma logs_logs a b w : logs b (logs a w) = logs (a ++ b) w.
Proof. unfold logs. cbn. by rewrite app_assoc. Qed.

Lemma log_logs ev evs w : log ev (logs evs w) = logs (evs ++ [ev]) w.
Proof. unfold log, logs. cbn. by rewrite app_assoc. Qed.

Lemma call_lift ev self evs w :
  liftW (call ev) (self, logs evs w)
  = (to_result (raises w ev), (self, logs (evs ++ [ev]) w)).
Proof.
  unfold liftW, call. cbn [raises logs].
  destruct (raises w ev); cbn [to_result]; by rewrite log_logs.
Qed.

Lemma attempt_app r a b :
  attempt r (a ++ b)
  = match attempt r a with
    | (made, Some e) => (made, Some e)
    | (made, None) => let '(made', x) := attempt r b in (made ++ made', x)
    end.
Proof.
  induction a as [|ev a IH]; cbn [attempt app].
  - by destruct (attempt r b).
  - destruct (r ev); [done|].
    rewrite IH. destruct (attempt r a) as [made [e|]]; [done|].
    by destruct (attempt r b).
Qed.

Lemma attempt_cons_some r ev evs e :
  r ev = Some e -> attempt r (ev :: evs) = ([ev], Some e).
Proof. intros H. cbn [attempt]. by rewrite H. Qed.

Lemma attempt_cons_none r ev evs :
  r ev = None -> attempt r (ev :: evs) = (ev :: (attempt r evs).1, (attempt r evs).2).
Proof. intros H. cbn [attempt]. rewrite H. by destruct (attempt r evs). Qed.

Lemma attempt_app_proj r a b :
  attempt r (a ++ b)
  = match (attempt r a).2 with
    | Some e => attempt r a
    | None => ((attempt r a).1 ++ (attempt r b).1, (attempt r b).2)
    end.
Proof.
  rewrite attempt_app. destruct (attempt r a) as [made [e|]]; [done|].
  by destruct (attempt r b).
Qed.

Lemma attempt_none r evs :
  Forall (fun ev => r ev = None) evs -> attempt r evs = (evs, None).
Proof.
  induction 1 as [|ev evs Hev _ IH]; cbn [attempt]; [done|].
  by rewrite Hev, IH.
Qed.

(** The calls made are a prefix of the calls asked for; if one raised it is
    the last one made, and it stopped the sequence. *)
Lemma attempt_prefix r evs :
  (attempt r evs).1 `prefix_of` evs.
Proof.
  induction evs as [|ev evs IH]; cbn [attempt]; [done|].
  destruct (r ev); cbn.
  - by apply (prefix_cons ev [] evs), prefix_nil.
  - destruct (attempt r evs) as [made x]. cbn in *. by apply prefix_cons.
Qed.

Lemma attempt_raised r evs e :
  (attempt r evs).2 = Some e ->
  exists made rest ev,
    (attempt r evs).1 = made ++ [ev] /\ evs = made ++ ev :: rest /\
    r ev = Some e /\ Forall (fun ev' => r ev' = None) made.
Proof.
  induction evs as [|ev evs IH]; cbn [attempt]; [done|].
  destruct (r ev) as [e'|] eqn:Hev; cbn.
  - intros [= ->]. by exists [], evs, ev.
  - destruct (attempt r evs) as [made x]. cbn in *. intros Hx.
    destruct (IH Hx) as (made' & rest & ev' & -> & -> & Hr & Hall).
    exists (ev :: made'), rest, ev'. repeat split; [done|by constructor].
Qed.

Lemma attempt_ok r evs :
  (attempt r evs).2 = None ->
  (attempt r evs).1 = evs /\ Forall (fun ev => r ev = None) evs.
Proof.
  induction evs as [|ev evs IH]; cbn [attempt]; [done|].
  destruct (r ev) as [e'|] eqn:Hev; cbn; [done|].
  destruct (attempt r evs) as [made x]. cbn in *. intros Hx.
  destruct (IH Hx) as [-> Hall]. split; [done|by constructor].
Qed.

(** ** Leaving the environment *)

Lemma kill_inner scheme (svs : list (Z * handle)) self evs w :
  for_each svs (fun '(port, server) => liftW (call (EvKill scheme port server)))
    (self, logs evs w)
  = let a := attempt (raises w)
               (map (fun '(port, server) => EvKill scheme port server) svs) in
    (to_result a.2, (self, logs (evs ++ a.1) w)).
Proof.
  revert evs. induction svs as [|[port server] svs IH]; intros evs.
  - cbn. by rewrite app_nil_r.
  - cbn [for_each map attempt]. unfold bind. rewrite call_lift.
    destruct (raises w (EvKill scheme port server)) as [e|]; cbn [to_result]; [done|].
    rewrite IH. cbn zeta.
    destruct (attempt _ _) as [made x]. cbn [fst snd].
    by rewrite <- app_assoc.
Qed.

Lemma kill_outer (f : fleet) self evs w :
  for_each f (fun '(scheme, servers) =>
    for_each servers (fun '(port, server) =>
      liftW (call (EvKill scheme port server)))) (self, logs evs w)
  = let a := attempt (raises w) (kill_events f) in
    (to_result a.2, (self, logs (evs ++ a.1) w)).
Proof.
  revert evs. induction f as [|[scheme svs] f IH]; intros evs.
  - cbn. by rewrite app_nil_r.
  - cbn [for_each kill_events flat_map]. unfold bind. rewrite kill_inner.
    cbn zeta. rewrite attempt_app.
    destruct (attempt (raises w) (map _ svs)) as [made [e|]]; cbn [fst snd to_result]; [done|].
    rewrite IH. cbn zeta. fold (kill_events f).
    destruct (attempt (raises w) (kill_events f)) as [made' x]. cbn [fst snd].
    by rewrite <- app_assoc.
Qed.

Lemma exit_extras (cms : list nat) self evs w :
  for_each cms (fun cm => liftW (call (EvExit (ExtraCm cm)))) (self, logs evs w)
  = let a := attempt (raises w) (extras_exit_events cms) in
    (to_result a.2, (self, logs (evs ++ a.1) w)).
Proof.
  revert evs. induction cms as [|cm cms IH]; intros evs.
  - cbn. by rewrite app_nil_r.
  - cbn [for_each extras_exit_events map attempt]. unfold bind. rewrite call_lift.
    destruct (raises w (EvExit (ExtraCm cm))) as [e|]; cbn [to_result]; [done|].
    rewrite IH. cbn zeta. fold (extras_exit_events cms).
    destruct (attempt _ _) as [made x]. cbn [fst snd].
    by rewrite <- app_assoc.
Qed.

(** What [__exit__] does, for an environment that was entered: it makes the
    calls of [exit_events] in order and stops at the first that raises. *)
Lemma exit_spec self w (f : fleet) cms :
  servers self = Some f -> env_extras_cms self = Some cms ->
  is_Some (config_ctx self) ->
  exists self',
    __exit__ (self, w)
    = (to_result (attempt (raises w) (exit_events f cms)).2,
       (self', logs (attempt (raises w) (exit_events f cms)).1 w)) /\
    (self' = self \/ self' = with_env_extras_cms None self).
Proof.
  intros Hs Hc [cfg Hcfg]. unfold __exit__, exit_events.
  replace (self, w) with (self, logs [] w) by (by rewrite logs_nil).
  unfold bind at 1. rewrite call_lift. cbn [app attempt].
  destruct (raises w (EvSignal SIG_DFL)) as [e|]; cbn [to_result];
    [eexists; split; [done|by left]|].
  unfold bind at 1. cbn [get_self gets fst]. rewrite Hs. cbn [from_option].
  unfold bind at 1. cbn [ret]. unfold bind at 1. rewrite kill_outer. cbn zeta.
  rewrite attempt_app.
  destruct (attempt (raises w) (kill_events f)) as [m1 [e|]]; cbn [fst snd to_result];
    [eexists; split; [done|by left]|].
  rewrite Hc. cbn [from_option]. unfold bind at 1. cbn [ret].
  unfold bind at 1. rewrite exit_extras. cbn zeta.
  rewrite attempt_app.
  destruct (attempt (raises w) (extras_exit_events cms)) as [m2 [e|]];
    cbn [fst snd to_result];
    [rewrite <- app_assoc; eexists; split; [done|by left]|].
  unfold bind at 1. cbn [set_self modify].
  cbn [attempt].
  unfold bind at 1. rewrite call_lift.
  destruct (raises w (EvExit CacheManager)) as [e|]; cbn [to_result fst snd];
    [rewrite <- !app_assoc; eexists; split; [done|by right]|].
  unfold bind at 1. rewrite call_lift.
  destruct (raises w (EvExit StashRes)) as [e|]; cbn [to_result fst snd];
    [rewrite <- !app_assoc; eexists; split; [done|by right]|].
  rewrite Hcfg. cbn [from_option]. unfold bind at 1. cbn [ret].
  unfold bind at 1. rewrite call_lift.
  destruct (raises w (EvExit ConfigCtx)) as [e|]; cbn [to_result fst snd];
    [rewrite <- !app_assoc; eexists; split; [done|by right]|].
  rewrite call_lift.
  destruct (raises w (EvExit ServerLoggingCtx)) as [e|]; cbn [to_result fst snd];
    rewrite <- !app_assoc; eexists; (split; [done|by right]).
Qed.

(** ** Entering the environment *)

Lemma enter_extras l (extras : list nat) self cms evs w :
  env_extras_cms self = Some cms ->
  exists self',
    for_each extras (fun env =>
      liftW (call (EvExtraNew env l)) ;;;
      liftW (call (EvEnter (ExtraCm env))) ;;;
      set_self (append_cm env)) (self, logs evs w)
    = (to_result (attempt (raises w) (extras_enter_events l extras)).2,
       (self', logs (evs ++ (attempt (raises w) (extras_enter_events l extras)).1) w))
    /\ logging_thread_started self' = logging_thread_started self
    /\ ((attempt (raises w) (extras_enter_events l extras)).2 = None ->
        self' = with_env_extras_cms (Some (cms ++ extras)) self).
Proof.
  revert self cms evs. induction extras as [|env extras IH]; intros self cms evs Hc.
  - exists self. cbn. rewrite !app_nil_r. split; [done|]. split; [done|].
    intros _. destruct self. cbn in *. by subst.
  - cbn [for_each extras_enter_events flat_map app attempt].
    unfold bind at 1. unfold bind at 1. rewrite call_lift.
    destruct (raises w (EvExtraNew env l)) as [e|]; cbn [to_result fst snd];
      [by eexists|].
    unfold bind at 1. rewrite call_lift.
    destruct (raises w (EvEnter (ExtraCm env))) as [e|]; cbn [to_result fst snd];
      [rewrite <- app_assoc; by eexists|].
    cbn [set_self modify].
    destruct (IH (append_cm env self) (cms ++ [env]) ((evs ++ [EvExtraNew env l]) ++
                [EvEnter (ExtraCm env)])) as (self' & Hrun & Hth & Hok).
    { unfold append_cm. cbn. by rewrite Hc. }
    fold (extras_enter_events l extras).
    exists self'. rewrite Hrun.
    destruct (attempt (raises w) (extras_enter_events l extras)) as [made x].
    cbn [fst snd] in *. rewrite <- !app_assoc. split; [done|]. split; [done|].
    intros Hx. rewrite (Hok Hx). unfold append_cm. cbn. by rewrite <- app_assoc.
Qed.

Lemma logging_ctx_enter_started self evs w :
  logging_thread_started self = true ->
  logging_ctx_enter (self, logs evs w)
  = (Raise (RuntimeError thread_msg), (self, logs (evs ++ [EvEnter ServerLoggingCtx]) w)).
Proof.
  intros H. unfold logging_ctx_enter. unfold bind at 1. cbn [get_self gets fst].
  rewrite H. unfold bind, liftW, modify, raise. by rewrite log_logs.
Qed.

Lemma logging_ctx_enter_fresh self evs w :
  logging_thread_started self = false ->
  logging_ctx_enter (self, logs evs w)
  = match raises w (EvEnter ServerLoggingCtx) with
    | Some e => (Raise e, (self, logs (evs ++ [EvEnter ServerLoggingCtx]) w))
    | None => (Ok tt, (with_logging_thread_started true self,
                       logs (evs ++ [EvEnter ServerLoggingCtx]) w))
    end.
Proof.
  intros H. unfold logging_ctx_enter. unfold bind at 1. cbn [get_self gets fst].
  rewrite H. unfold bind at 1. rewrite call_lift.
  by destruct (raises w (EvEnter ServerLoggingCtx)).
Qed.

(** One collaborator call of a method: the call is looked up in the oracle
    and the proof goes on in both cases. *)
Ltac call_step :=
  rewrite call_lift;
  match goal with
  | |- context [to_result (raises ?w ?ev)] =>
      let H := fresh "Hcall" in
      let e := fresh "e" in
      destruct (raises w ev) as [e|] eqn:H;
      [ rewrite ?(attempt_cons_some _ _ _ _ H); cbn [to_result fst snd];
        rewrite <- ?app_assoc
      | rewrite ?(attempt_cons_none _ _ _ H); cbn [to_result fst snd] ]
  end.

Ltac enter_stop :=
  eexists; cbn [fst snd];
  split; [rewrite <- ?app_assoc; reflexivity|];
  split; [congruence|];
  split; [by intros|];
  intros; discriminate.

Lemma enter_run self w :
  exists self',
    __enter__ (self, w)
    = ((enter_outcome self w).1, (self', logs (enter_outcome self w).2 w)) /\
    (logging_thread_started self = true -> self' = self) /\
    (raises w (EvEnter ServerLoggingCtx) = None ->
     logging_thread_started self' = true) /\
    (forall cfg,
       build_config self (config_src w) (heap w) = Ok cfg ->
       (enter_outcome self w).1 = Ok tt ->
       self' = entered self cfg (started w)).
Proof.
  unfold __enter__, enter_outcome.
  replace (self, w) with (self, logs [] w) by (by rewrite logs_nil).
  unfold bind at 1.
  destruct (logging_thread_started self) eqn:Hth.
  { rewrite (logging_ctx_enter_started _ _ _ Hth). cbn [app fst snd].
    exists self. repeat split; try done. }
  rewrite (logging_ctx_enter_fresh _ _ _ Hth). cbn [app].
  destruct (raises w (EvEnter ServerLoggingCtx)) as [e|] eqn:HL.
  { exists self. cbn [fst snd]. repeat split; try done. }
  unfold bind at 1. cbn [get_self gets fst]. unfold bind at 1. cbn [gets snd].
  cbn [config_src heap logs].
  change (build_config (with_logging_thread_started true self) (config_src w) (heap w))
    with (build_config self (config_src w) (heap w)).
  destruct (build_config self (config_src w) (heap w)) as [cfg|e] eqn:Hb.
  2:{ eexists. cbn [fst snd]. split; [reflexivity|]. repeat split; try done. }
  unfold enter_events_before. rewrite (attempt_cons_none _ _ _ HL). cbn [fst snd].
  unfold bind at 1. cbn [set_self modify].
  unfold bind at 1. call_step; [enter_stop|].
  unfold bind at 1. cbn [set_self modify].
  unfold bind at 1. call_step; [enter_stop|].
  unfold bind at 1. call_step; [enter_stop|].
  unfold bind at 1. cbn [get_self gets fst].
  cbn [env_extras_cms with_config with_config_ctx with_logging_thread_started].
  cbn [attempt fst snd].
  destruct (env_extras_cms self) as [cms|] eqn:Hc; [enter_stop|].
  unfold bind at 1. cbn [set_self modify]. unfold bind at 1.
  cbn [env_extras options with_config with_config_ctx with_logging_thread_started].
  edestruct (enter_extras (options self) (env_extras self))
    as (self1 & Hrun & Hth1 & Hok); [|rewrite Hrun; clear Hrun].
  { reflexivity. }
  cbn [logging_thread_started with_env_extras_cms with_config with_config_ctx
         with_logging_thread_started] in Hth1.
  unfold enter_events_extras. rewrite attempt_app_proj.
  pose proof (attempt_ok (raises w)
                (extras_enter_events (options self) (env_extras self))) as Hm.
  destruct (attempt (raises w) (extras_enter_events _ _)) as [m1 [e|]];
    cbn [fst snd to_result] in *; [enter_stop|].
  specialize (Hok eq_refl). subst self1. clear Hth1.
  destruct (Hm eq_refl) as [-> Hextras]. clear Hm.
  cbn [app]. unfold bind at 1. call_step; [enter_stop|].
  cbn [attempt fst snd].
  unfold bind at 1. cbn [gets snd]. unfold bind at 1. unfold from_result at 1.
  cbn [heap logs].
  change (get_routes (with_config (Some cfg)
            (with_config_ctx (Some cfg) (with_logging_thread_started true self))) ?rs ?h)
    with (get_routes self rs h).
  change (routes_of _ (logs _ w)) with (routes_of self w).
  destruct (get_routes self (routes_of self w) (heap w)) as [calls|e] eqn:Hg;
    [|enter_stop].
  unfold enter_events_start.
  unfold bind at 1. call_step; [enter_stop|].
  unfold bind at 1. cbn [gets snd]. unfold bind at 1. cbn [set_self modify].
  cbn [heap logs started debug_info with_config with_config_ctx
         with_logging_thread_started].
  fold (wants_debugger self (heap w)).
  destruct (wants_debugger self (heap w)).
  - call_step; [enter_stop|].
    cbn [attempt fst snd]. eexists.
    split; [rewrite <- ?app_assoc; reflexivity|].
    split; [congruence|]. split; [by intros|].
    intros cfg' [= <-] _. reflexivity.
  - cbn [ret attempt fst snd to_result]. eexists.
    split; [rewrite <- ?app_assoc; reflexivity|].
    split; [congruence|]. split; [by intros|].
    intros cfg' [= <-] _. reflexivity.
Qed.

Lemma enter_events_split self h :
  enter_events self h
  = enter_events_before ++ enter_events_extras self ++ enter_events_start self h.
Proof.
  unfold enter_events, enter_events_after, enter_events_extras, enter_events_start.
  by rewrite <- !app_assoc.
Qed.

(** The calls that [__enter__] makes are the first of [enter_events]. *)
Lemma enter_outcome_prefix self w :
  (enter_outcome self w).2 `prefix_of` enter_events self (heap w).
Proof.
  assert (HL : [EvEnter ServerLoggingCtx] `prefix_of` enter_events self (heap w)).
  { unfold enter_events, enter_events_before. cbn [app].
    by apply (prefix_cons _ []), prefix_nil. }
  rewrite enter_events_split in *. unfold enter_outcome.
  destruct (logging_thread_started self); [done|].
  destruct (raises w (EvEnter ServerLoggingCtx)); [done|].
  destruct (build_config self (config_src w) (heap w)); [|done].
  cbn zeta.
  destruct (attempt (raises w) enter_events_before).2 eqn:Ha.
  { cbn [snd]. etrans; [apply attempt_prefix|]. by apply prefix_app_r. }
  destruct (env_extras_cms self).
  { cbn [snd]. by apply prefix_app_r. }
  destruct (attempt (raises w) (enter_events_extras self)).2 eqn:Hb.
  { cbn [snd]. apply prefix_app, prefix_app_r, attempt_prefix. }
  destruct (get_routes self (routes_of self w) (heap w)); cbn [snd].
  - apply prefix_app, prefix_app, attempt_prefix.
  - rewrite app_assoc. by apply prefix_app_r.
Qed.

(** When [__enter__] returns, no call raised, the object was neither
    entered nor its logging thread started, and [build_config] and
    [get_routes] returned. *)
Lemma enter_outcome_ok self w :
  (enter_outcome self w).1 = Ok tt ->
  logging_thread_started self = false /\
  env_extras_cms self = None /\
  (exists cfg, build_config self (config_src w) (heap w) = Ok cfg) /\
  (exists calls, get_routes self (routes_of self w) (heap w) = Ok calls) /\
  Forall (fun ev => raises w ev = None) (enter_events self (heap w)) /\
  (enter_outcome self w).2 = enter_events self (heap w).
Proof.
  rewrite enter_events_split. unfold enter_outcome.
  destruct (logging_thread_started self); [done|].
  destruct (raises w (EvEnter ServerLoggingCtx)); [done|].
  destruct (build_config self (config_src w) (heap w)) as [cfg|]; [|done].
  cbn zeta.
  destruct (attempt (raises w) enter_events_before).2 eqn:Ha; [done|].
  destruct (env_extras_cms self); [done|].
  destruct (attempt (raises w) (enter_events_extras self)).2 eqn:Hb; [done|].
  destruct (get_routes self (routes_of self w) (heap w)) as [calls|]; [|done].
  cbn [fst snd].
  destruct (attempt (raises w) (enter_events_start self (heap w))).2 eqn:Hc; [done|].
  intros _.
  destruct (attempt_ok _ _ Ha) as [_ Ha'].
  destruct (attempt_ok _ _ Hb) as [_ Hb'].
  destruct (attempt_ok _ _ Hc) as [-> Hc'].
  split; [done|]. split; [done|]. split; [by exists cfg|]. split; [by exists calls|].
  split; [|done]. by rewrite !Forall_app.
Qed.

(** When [__enter__] raises, the exception is that of the last call made,
    all calls before it having returned, or one of its own errors. *)
Lemma enter_outcome_raise self w e :
  (enter_outcome self w).1 = Raise e ->
  (exists pre ev,
     (enter_outcome self w).2 = pre ++ [ev] /\ raises w ev = Some e /\
     Forall (fun ev' => raises w ev' = None) pre) \/
  (enter_own_error self w e /\
   (logging_thread_started self = false ->
    Forall (fun ev => raises w ev = None) (enter_outcome self w).2)).
Proof.
  unfold enter_outcome, enter_own_error.
  destruct (logging_thread_started self).
  { intros [= <-]. right. split; [by left|done]. }
  destruct (raises w (EvEnter ServerLoggingCtx)) as [e0|] eqn:HL.
  { intros [= <-]. left. by exists [], (EvEnter ServerLoggingCtx). }
  destruct (build_config self (config_src w) (heap w)) as [cfg|e0].
  2:{ intros [= <-]. right. split; [by right; left|]. intros _. by repeat constructor. }
  cbn zeta.
  destruct (attempt (raises w) enter_events_before).2 as [e0|] eqn:Ha.
  { intros [= <-]. left.
    destruct (attempt_raised _ _ _ Ha) as (pre & rest & ev & Hm & _ & Hev & Hpre).
    exists pre, ev. by rewrite Hm. }
  destruct (attempt_ok _ _ Ha) as [_ Ha'].
  destruct (env_extras_cms self) as [cms|].
  { intros [= <-]. right. split; [|done]. right; right; left. split; [by eexists|done]. }
  destruct (attempt (raises w) (enter_events_extras self)).2 as [e0|] eqn:Hb.
  { intros [= <-]. left.
    destruct (attempt_raised _ _ _ Hb) as (pre & rest & ev & Hm & _ & Hev & Hpre).
    exists (enter_events_before ++ pre), ev. cbn [snd]. rewrite Hm, app_assoc.
    split; [done|]. split; [done|]. by apply Forall_app. }
  destruct (attempt_ok _ _ Hb) as [_ Hb'].
  destruct (get_routes self (routes_of self w) (heap w)) as [calls|e0].
  2:{ intros [= <-]. right. split; [by right; right; right|]. intros _.
      by apply Forall_app. }
  cbn [fst snd].
  destruct (attempt (raises w) (enter_events_start self (heap w))).2 as [e0|] eqn:Hc;
    [|done].
  intros [= <-]. left.
  destruct (attempt_raised _ _ _ Hc) as (pre & rest & ev & Hm & _ & Hev & Hpre).
  exists (enter_events_before ++ enter_events_extras self ++ pre), ev.
  rewrite Hm, !app_assoc. split; [done|]. split; [done|].
  rewrite <- app_assoc. by rewrite !Forall_app.
Qed.

(** What [__enter__] does when it returns. *)
Lemma enter_ok self w :
  (__enter__ (self, w)).1 = Ok tt ->
  exists cfg,
    build_config self (config_src w) (heap w) = Ok cfg /\
    __enter__ (self, w)
    = (Ok tt, (entered self cfg (started w), logs (enter_events self (heap w)) w)) /\
    logging_thread_started self = false /\
    env_extras_cms self = None /\
    Forall (fun ev => raises w ev = None) (enter_events self (heap w)) /\
    exists calls, get_routes self (routes_of self w) (heap w) = Ok calls.
Proof.
  destruct (enter_run self w) as (self' & Hrun & _ & _ & Hself).
  rewrite Hrun. cbn [fst]. intros Hok.
  destruct (enter_outcome_ok self w Hok) as (Hth & Hc & [cfg Hb] & Hg & Hall & Hm).
  exists cfg. split; [done|]. rewrite Hok, Hm, (Hself cfg Hb Hok). done.
Qed.

(** What [__enter__] does on an object whose logging thread was started:
    the start of the thread raises, and nothing else is done. *)
Lemma enter_thread_started self w :
  logging_thread_started self = true ->
  __enter__ (self, w)
  = (Raise (RuntimeError thread_msg), (self, logs [EvEnter ServerLoggingCtx] w)).
Proof.
  intros Hth. destruct (enter_run self w) as (self' & Hrun & Hself & _).
  rewrite Hrun, (Hself Hth). unfold enter_outcome. by rewrite Hth.
Qed.

Lemma enter_events_no_release self h :
  Forall (fun ev => is_release ev = false) (enter_events self h).
Proof.
  unfold enter_events, enter_events_before, enter_events_after.
  repeat (apply Forall_app; split); try by repeat constructor.
  - unfold extras_enter_events. induction (env_extras self) as [|env l IH]; cbn.
    + constructor.
    + by repeat constructor.
  - destruct (wants_debugger self h); by repeat constructor.
Qed.

Lemma Forall_prefix {A} (P : A -> Prop) (l k : list A) :
  l `prefix_of` k -> Forall P k -> Forall P l.
Proof. intros [k' ->] H. by apply Forall_app in H as [H _]. Qed.

(** The calls [__enter__] makes are the first of [enter_events], whatever
    its outcome, and it changes nothing else in the world. *)
Lemma enter_world self w :
  exists made,
    (__enter__ (self, w)).2.2 = logs made w /\
    made `prefix_of` enter_events self (heap w).
Proof.
  destruct (enter_run self w) as (self' & -> & _).
  eexists. split; [done|]. apply enter_outcome_prefix.
Qed.

Lemma enter_trace self w :
  exists made,
    trace (__enter__ (self, w)).2.2 = trace w ++ made /\
    made `prefix_of` enter_events self (heap w).
Proof.
  destruct (enter_world self w) as (made & -> & Hp). by exists made.
Qed.

(** ** Failures while leaving and entering *)

(** C2, as the code has it: [__exit__] makes its release calls one after the
    other with no handler around them.  Either no call raises and all of
    them are made, or the first call that raises ends [__exit__]: its
    exception propagates at once and the calls after it are not made. *)
Theorem exit_stops_at_first_failure self w (f : fleet) cms :
  servers self = Some f -> env_extras_cms self = Some cms ->
  is_Some (config_ctx self) ->
  stops_at_first_failure w (exit_events f cms) (__exit__ (self, w)).
Proof.
  intros Hs Hc Hcfg. unfold stops_at_first_failure.
  destruct (exit_spec self w f cms Hs Hc Hcfg) as (self' & -> & _). cbn [fst snd].
  destruct (attempt (raises w) (exit_events f cms)).2 as [e|] eqn:E.
  - right. destruct (attempt_raised _ _ _ E) as (made & rest & ev & Hm & Hev & Hr & Hall).
    exists e, made, ev, rest. rewrite Hm. by repeat split.
  - left. destruct (attempt_ok _ _ E) as [-> Hall]. by repeat split.
Qed.

Lemma exit_stops_at_first_failure_witness :
  servers entered_extra_exit_fails.1 = Some example_fleet /\
  env_extras_cms entered_extra_exit_fails.1 = Some [0%nat; 1%nat] /\
  is_Some (config_ctx entered_extra_exit_fails.1) /\
  stops_at_first_failure entered_extra_exit_fails.2
    (exit_events example_fleet [0%nat; 1%nat])
    (__exit__ (entered_extra_exit_fails.1, entered_extra_exit_fails.2)).
Proof.
  split; [reflexivity|]. split; [reflexivity|].
  split; [eexists; reflexivity|].
  apply (exit_stops_at_first_failure entered_extra_exit_fails.1
           entered_extra_exit_fails.2 example_fleet [0%nat; 1%nat]);
    [reflexivity | reflexivity | eexists; reflexivity].
Defined.

(** C2 fails as stated: when leaving the first extra raises, the cache
    manager, the stash, the config scope and the logging proxy are not
    released, and the second extra is not left either. *)
Lemma exit_skips_releases_after_failure :
  (__exit__ entered_extra_exit_fails).1 = Raise (CollaboratorError "extra.__exit__") /\
  released (drop (length (trace entered_extra_exit_fails.2))
                 (trace (__exit__ entered_extra_exit_fails).2.2))
  = [Fleet; Fleet; Fleet; ExtraCm 0].
Proof. split; reflexivity. Qed.

(** C3, as the code has it: when [__enter__] fails partway, the exception
    [e] that propagates is the one raised by the last call made, every call
    before it having returned, or it is one of the errors of [__enter__]
    itself, and then the calls made returned (unless the error is that of a
    logging thread started twice).  In both cases nothing is released: the
    calls made are the first of the acquisition calls of [__enter__], and
    none of them is an [__exit__] or a [kill]. *)
Theorem enter_failure_releases_nothing self w e :
  (__enter__ (self, w)).1 = Raise e ->
  exists made,
    trace (__enter__ (self, w)).2.2 = trace w ++ made /\
    made `prefix_of` enter_events self (heap w) /\
    Forall (fun ev => is_release ev = false) made /\
    ((exists pre ev,
        made = pre ++ [ev] /\ raises w ev = Some e /\
        Forall (fun ev' => raises w ev' = None) pre) \/
     (enter_own_error self w e /\
      (logging_thread_started self = false ->
       Forall (fun ev => raises w ev = None) made))).
Proof.
  destruct (enter_run self w) as (self' & -> & _). cbn [fst snd trace logs].
  intros Hraise. exists (enter_outcome self w).2.
  split; [done|]. split; [apply enter_outcome_prefix|]. split.
  - eapply Forall_prefix; [apply enter_outcome_prefix | apply enter_events_no_release].
  - by apply enter_outcome_raise.
Qed.

Lemma enter_failure_releases_nothing_witness :
  (__enter__ (constructed_start_fails.1, constructed_start_fails.2)).1
  = Raise (CollaboratorError "serve.start") /\
  exists made,
    trace (__enter__ (constructed_start_fails.1, constructed_start_fails.2)).2.2
    = trace constructed_start_fails.2 ++ made /\
    made `prefix_of` enter_events constructed_start_fails.1 (heap constructed_start_fails.2) /\
    Forall (fun ev => is_release ev = false) made /\
    ((exists pre ev,
        made = pre ++ [ev] /\
        raises constructed_start_fails.2 ev = Some (CollaboratorError "serve.start") /\
        Forall (fun ev' => raises constructed_start_fails.2 ev' = None) pre) \/
     (enter_own_error constructed_start_fails.1 constructed_start_fails.2
        (CollaboratorError "serve.start") /\
      (logging_thread_started constructed_start_fails.1 = false ->
       Forall (fun ev => raises constructed_start_fails.2 ev = None) made))).
Proof.
  split; [reflexivity|].
  apply (enter_failure_releases_nothing constructed_start_fails.1
           constructed_start_fails.2 (CollaboratorError "serve.start")).
  reflexivity.
Defined.

(** C3 fails as stated: when [serve.start] raises, the logging proxy, the
    config scope, the stash, the cache manager and the extra that were
    entered are not left: the trace of [__enter__] ends with the failing
    call. *)
Lemma enter_failure_leaves_resources_acquired :
  (__enter__ constructed_start_fails).1 = Raise (CollaboratorError "serve.start") /\
  trace (__enter__ constructed_start_fails).2.2
  = [EvEnter ServerLoggingCtx; EvEnter ConfigCtx; EvEnter StashRes; EvEnter CacheManager;
     EvExtraNew 0 0%nat; EvEnter (ExtraCm 0); EvGetRoutes; EvServeStart] /\
  released (trace (__enter__ constructed_start_fails).2.2) = [].
Proof. repeat split; reflexivity. Qed.

(** ** Nesting *)

Lemma build_config_with_total upd self src h root :
  serve_path (test_paths self) = Ok root ->
  exists cfg, build_config_with upd self src h = Ok cfg.
Proof. intros H. unfold build_config_with. rewrite H. by eexists. Qed.

(** C4, as the code has it: the guard against nesting is in the object.
    On an object whose scope is active ([__enter__] returned, so that its
    [env_extras_cms] is set), a second [__enter__] raises, in whatever world
    and so whatever the options dict holds: the thread of the logging proxy
    was started by the first [__enter__] and cannot be started again.  That
    error comes at the first step; nothing else is entered, the object is
    left as it was, and the assertion on [env_extras_cms], which comes
    later, is not reached. *)
Theorem nested_enter_rejected self w w' :
  (__enter__ (self, w)).1 = Ok tt ->
  is_Some (env_extras_cms (__enter__ (self, w)).2.1) /\
  __enter__ ((__enter__ (self, w)).2.1, w')
  = (Raise (RuntimeError thread_msg),
     ((__enter__ (self, w)).2.1, logs [EvEnter ServerLoggingCtx] w')).
Proof.
  intros Hok. destruct (enter_ok self w Hok) as (cfg & _ & -> & _). cbn [fst snd].
  split; [by eexists|]. by apply enter_thread_started.
Qed.

Lemma nested_enter_rejected_witness :
  (__enter__ (constructed_quiet.1, constructed_quiet.2)).1 = Ok tt /\
  is_Some (env_extras_cms (__enter__ (constructed_quiet.1, constructed_quiet.2)).2.1) /\
  __enter__ ((__enter__ (constructed_quiet.1, constructed_quiet.2)).2.1, entered_quiet.2)
  = (Raise (RuntimeError thread_msg),
     ((__enter__ (constructed_quiet.1, constructed_quiet.2)).2.1,
      logs [EvEnter ServerLoggingCtx] entered_quiet.2)).
Proof.
  split; [reflexivity|].
  exact (nested_enter_rejected constructed_quiet.1 constructed_quiet.2 entered_quiet.2
           eq_refl).
Defined.

(** C4 fails as stated: while the scope of one object is active, a second
    object enters without an error. *)
Lemma second_instance_enters :
  (__enter__ constructed_quiet).1 = Ok tt /\
  env_extras_cms entered_quiet.1 = Some [0%nat; 1%nat] /\
  (__enter__ second_instance).1 = Ok tt /\
  (__enter__ second_instance).1 <> Raise (AssertionError nested_msg).
Proof. repeat split; try reflexivity. discriminate. Qed.

(** ** The order of acquisition and release *)

Lemma acquired_app a b : acquired (a ++ b) = acquired a ++ acquired b.
Proof. apply omap_app. Qed.

Lemma released_app a b : released (a ++ b) = released a ++ released b.
Proof. apply omap_app. Qed.

Lemma acquired_extras l extras :
  acquired (extras_enter_events l extras) = map ExtraCm extras.
Proof. induction extras as [|env extras IH]; cbn; [done|]. by f_equal. Qed.

Lemma acquired_enter_events self h :
  acquired (enter_events self h)
  = [ServerLoggingCtx; ConfigCtx; StashRes; CacheManager] ++
    map ExtraCm (env_extras self) ++ [Fleet].
Proof.
  unfold enter_events, enter_events_after.
  rewrite !acquired_app, acquired_extras.
  by destruct (wants_debugger self h).
Qed.

Lemma released_kills (f : fleet) :
  released (kill_events f) = replicate (length (kill_events f)) Fleet.
Proof.
  unfold kill_events. induction f as [|[scheme svs] f IH]; [done|].
  cbn [flat_map]. rewrite released_app, length_app, replicate_add, IH. f_equal.
  clear IH. induction svs as [|[port server] svs IH]; [done|]. cbn. by f_equal.
Qed.

Lemma released_exit_events (f : fleet) cms :
  released (exit_events f cms)
  = replicate (length (kill_events f)) Fleet ++ map ExtraCm cms ++
    [CacheManager; StashRes; ConfigCtx; ServerLoggingCtx].
Proof.
  assert (He : released (extras_exit_events cms) = map ExtraCm cms).
  { unfold extras_exit_events. induction cms as [|cm cms IH]; cbn; [done|]. by f_equal. }
  unfold exit_events. rewrite !released_app, released_kills, He. done.
Qed.

Lemma kill_events_elem (f : fleet) scheme svs port server :
  (scheme, svs) ∈ f -> (port, server) ∈ svs ->
  EvKill scheme port server ∈ kill_events f.
Proof.
  intros Hf Hs. unfold kill_events. apply list_elem_of_In, in_flat_map.
  exists (scheme, svs). split; [by apply list_elem_of_In|].
  apply in_map_iff. exists (port, server). split; [done | by apply list_elem_of_In].
Qed.

(** C8, as the code has it: when [__enter__] returns it has acquired the
    logging proxy, the config scope, the stash, the cache manager, the
    extras in the order given, and the fleet that [serve.start] returned;
    when [__exit__] then returns it has killed every server of that fleet,
    left every extra, and left the cache manager, the stash, the config
    scope and the logging proxy: the groups in the reverse of the order of
    acquisition. *)
Theorem enter_exit_order self w :
  (__enter__ (self, w)).1 = Ok tt ->
  (__exit__ (__enter__ (self, w)).2).1 = Ok tt ->
  scope_in_order self w.
Proof.
  intros Hok. unfold scope_in_order.
  destruct (enter_ok self w Hok) as (cfg & _ & Hrun & _).
  rewrite Hrun. cbn [fst snd].
  set (w1 := logs (enter_events self (heap w)) w).
  destruct (exit_spec (entered self cfg (started w)) w1 (started w) (env_extras self)
              eq_refl eq_refl (ex_intro _ cfg eq_refl)) as (self2 & Hexit & _).
  rewrite Hexit. cbn [fst snd]. change (raises w1) with (raises w).
  intros Hx.
  destruct (attempt (raises w) (exit_events (started w) (env_extras self))).2
    as [e|] eqn:Ha; [done|].
  destruct (attempt_ok _ _ Ha) as [-> _].
  exists (enter_events self (heap w)), (exit_events (started w) (env_extras self)),
    (map ExtraCm (env_extras self)).
  split; [done|]. split; [done|].
  split; [apply acquired_enter_events|]. split; [done|].
  split.
  { intros scheme svs port server Hf Hs. unfold exit_events.
    apply elem_of_app. right. apply elem_of_app. left.
    by eapply kill_events_elem. }
  split; [done|]. apply released_exit_events.
Qed.

Lemma enter_exit_order_witness :
  (__enter__ (constructed_quiet.1, constructed_quiet.2)).1 = Ok tt /\
  (__exit__ (__enter__ (constructed_quiet.1, constructed_quiet.2)).2).1 = Ok tt /\
  scope_in_order constructed_quiet.1 constructed_quiet.2.
Proof.
  split; [reflexivity|]. split; [reflexivity|].
  apply (enter_exit_order constructed_quiet.1 constructed_quiet.2); reflexivity.
Defined.

(** C8 fails as stated: the stash is entered before the cache manager, not
    after it; and two extras are left in the order they were entered in. *)
Lemma stash_before_cache_extras_in_order :
  acquired (trace entered_quiet.2)
  = [ServerLoggingCtx; ConfigCtx; StashRes; CacheManager; ExtraCm 0; ExtraCm 1; Fleet] /\
  acquired (trace entered_quiet.2)
  <> [ServerLoggingCtx; ConfigCtx; CacheManager; StashRes; ExtraCm 0; ExtraCm 1; Fleet] /\
  released (drop (length (trace entered_quiet.2)) (trace (__exit__ entered_quiet).2.2))
  = [Fleet; Fleet; Fleet; ExtraCm 0; ExtraCm 1;
     CacheManager; StashRes; ConfigCtx; ServerLoggingCtx] /\
  released (drop (length (trace entered_quiet.2)) (trace (__exit__ entered_quiet).2.2))
  <> [Fleet; Fleet; Fleet; ExtraCm 1; ExtraCm 0;
      CacheManager; StashRes; ConfigCtx; ServerLoggingCtx].
Proof. repeat split; try reflexivity; discriminate. Qed.

(** ** The assembled configuration *)

(** C9: whatever [config.update] does with the override document, the
    configuration that [build_config] returns has [check_subdomains] set to
    [False]: the assignment comes after the update. *)
Theorem check_subdomains_always_false upd self src h root :
  serve_path (test_paths self) = Ok root ->
  exists cfg,
    build_config_with upd self src h = Ok cfg /\ check_subdomains cfg = VBool false.
Proof.
  intros Hp. unfold build_config_with. rewrite Hp.
  eexists. split; [reflexivity|].
  by do 2 destruct (dict_mem _ _ _).
Qed.

Lemma check_subdomains_always_false_witness :
  serve_path (test_paths constructed_quiet.1) = Ok "/wpt" /\
  exists cfg,
    build_config_with update constructed_quiet.1 (source_with override_check_subdomains)
      (heap constructed_quiet.2) = Ok cfg /\
    check_subdomains cfg = VBool false.
Proof.
  split; [reflexivity|].
  apply (check_subdomains_always_false update constructed_quiet.1
           (source_with override_check_subdomains) (heap constructed_quiet.2) "/wpt").
  reflexivity.
Defined.

Lemma build_config_ports_eq self src h root :
  serve_path (test_paths self) = Ok root ->
  exists cfg,
    build_config self src h = Ok cfg /\
    ports cfg
    = let ports := if enable_quic self
                   then <["quic-transport" := [10000]]> default_ports
                   else default_ports in
      match config_json src root with
      | Some d => match ov_ports d with
                  | Some p => replace_defaults p ports
                  | None => ports
                  end
      | None => ports
      end.
Proof.
  intros Hp. unfold build_config, build_config_with. rewrite Hp.
  eexists. split; [reflexivity|].
  do 2 destruct (dict_mem _ _ _); cbn; by destruct (config_json src root).
Qed.

Lemma default_ports_lookup s :
  is_Some (default_ports !! s) <-> s ∈ baseline_schemes.
Proof.
  unfold default_ports, baseline_schemes.
  rewrite !lookup_insert_is_Some, lookup_empty, is_Some_alt.
  rewrite !elem_of_cons, elem_of_nil. intuition congruence.
Qed.

Lemma replace_defaults_lookup {A} (p m : gmap string A) s :
  replace_defaults p m !! s
  = match m !! s with
    | Some v => Some (default v (p !! s))
    | None => None
    end.
Proof.
  unfold replace_defaults. rewrite lookup_merge.
  by destruct (p !! s), (m !! s).
Qed.

Lemma replace_defaults_is_Some {A} (p m : gmap string A) s :
  is_Some (replace_defaults p m !! s) <-> is_Some (m !! s).
Proof.
  rewrite replace_defaults_lookup. destruct (m !! s); [|done].
  split; intros _; by eexists.
Qed.

(** C6, with the merge of the override document as the spec describes it:
    for every option bag (heap [h]) and every override document (source
    [src]), the ports of the assembled configuration have the five baseline
    schemes, and they have the QUIC scheme if and only if QUIC is enabled.
    A scheme of the table takes the override's ports when the override
    document lists it, and without an override document the table is the
    default one, with the QUIC entry when QUIC is enabled. *)
Theorem build_config_ports self src h root :
  serve_path (test_paths self) = Ok root ->
  exists cfg,
    build_config self src h = Ok cfg /\
    (forall s, s ∈ baseline_schemes -> is_Some (ports cfg !! s)) /\
    (is_Some (ports cfg !! "quic-transport") <-> enable_quic self = true) /\
    (forall d p s v,
       config_json src root = Some d -> ov_ports d = Some p -> p !! s = Some v ->
       is_Some (ports cfg !! s) -> ports cfg !! s = Some v) /\
    (config_json src root = None ->
     ports cfg = if enable_quic self
                 then <["quic-transport" := [10000]]> default_ports
                 else default_ports).
Proof.
  intros Hp. destruct (build_config_ports_eq self src h root Hp) as (cfg & Hb & Hports).
  exists cfg. split; [done|]. rewrite Hports. clear Hb Hports. cbn zeta.
  assert (Hq : ~ is_Some (default_ports !! "quic-transport")).
  { rewrite default_ports_lookup. unfold baseline_schemes.
    rewrite !elem_of_cons, elem_of_nil. intuition discriminate. }
  assert (Hbase : forall s, s ∈ baseline_schemes ->
            is_Some ((if enable_quic self
                      then <["quic-transport" := [10000]]> default_ports
                      else default_ports) !! s)).
  { intros s Hs. destruct (enable_quic self); [|by apply default_ports_lookup].
    apply lookup_insert_is_Some'. right. by apply default_ports_lookup. }
  assert (Hquic : is_Some ((if enable_quic self
                      then <["quic-transport" := [10000]]> default_ports
                      else default_ports) !! "quic-transport")
                  <-> enable_quic self = true).
  { destruct (enable_quic self).
    - rewrite lookup_insert_eq. split; [done|]. by eexists.
    - split; [by intros ?%Hq | done]. }
  destruct (config_json src root) as [d|]; [destruct (ov_ports d) as [p|] eqn:Ep|].
  - split; [|split; [|split]].
    + intros s Hs. apply replace_defaults_is_Some. by apply Hbase.
    + by rewrite replace_defaults_is_Some.
    + intros d' p' s v [= <-] Hp' Hs. assert (p' = p) as -> by congruence.
      rewrite replace_defaults_lookup, Hs.
      destruct ((if enable_quic self then _ else _) !! s); [done | by intros [? ?]].
    + done.
  - split; [done|]. split; [done|]. split; [|done].
    intros d' p' s v [= <-]. congruence.
  - split; [done|]. split; [done|]. split; [|done]. intros; discriminate.
Qed.

Lemma build_config_ports_witness :
  serve_path (test_paths constructed_quiet.1) = Ok "/wpt" /\
  exists cfg,
    build_config constructed_quiet.1 (source_with override_quic)
      (heap constructed_quiet.2) = Ok cfg /\
    (forall s, s ∈ baseline_schemes -> is_Some (ports cfg !! s)) /\
    (is_Some (ports cfg !! "quic-transport") <-> enable_quic constructed_quiet.1 = true) /\
    (forall d p s v,
       config_json (source_with override_quic) "/wpt" = Some d -> ov_ports d = Some p ->
       p !! s = Some v ->
       is_Some (ports cfg !! s) -> ports cfg !! s = Some v) /\
    (config_json (source_with override_quic) "/wpt" = None ->
     ports cfg = if enable_quic constructed_quiet.1
                 then <["quic-transport" := [10000]]> default_ports
                 else default_ports).
Proof.
  split; [reflexivity|].
  apply (build_config_ports constructed_quiet.1 (source_with override_quic)
           (heap constructed_quiet.2) "/wpt").
  reflexivity.
Defined.

(** With QUIC disabled, an override document that lists a port for the QUIC
    scheme does not bring that scheme into the configuration, and one that
    lists a port for [http] replaces the default of that scheme only. *)
Lemma override_replaces_defaults_only :
  enable_quic constructed_quiet.1 = false /\
  (exists cfg,
     build_config constructed_quiet.1 (source_with override_quic)
       (heap constructed_quiet.2) = Ok cfg /\
     ports cfg = default_ports) /\
  (exists cfg,
     build_config constructed_quiet.1 (source_with override_http)
       (heap constructed_quiet.2) = Ok cfg /\
     ports cfg = <["http" := [9999]]> default_ports).
Proof.
  split; [reflexivity|].
  split; eexists; (split; [reflexivity|]); by vm_compute.
Qed.

(** ** The options dict *)

Lemma extras_events_options l (extras : list nat) :
  Forall (fun ev => forall i o, ev = EvExtraNew i o -> o = l)
         (extras_enter_events l extras).
Proof.
  unfold extras_enter_events. induction extras as [|env extras IH]; cbn.
  - constructor.
  - constructor; [by intros i o [= _ <-]|]. by constructor.
Qed.

Lemma enter_events_options self h :
  Forall (fun ev => forall i o, ev = EvExtraNew i o -> o = options self)
         (enter_events self h).
Proof.
  unfold enter_events, enter_events_before, enter_events_after.
  repeat (apply Forall_app; split); try by repeat constructor.
  - apply extras_events_options.
  - destruct (wants_debugger self h); by repeat constructor.
Qed.

Lemma enter_events_extra self h i :
  i ∈ env_extras self -> EvExtraNew i (options self) ∈ enter_events self h.
Proof.
  intros Hi. unfold enter_events, enter_events_after.
  apply elem_of_app. right. apply elem_of_app. left.
  unfold extras_enter_events. apply list_elem_of_In, in_flat_map.
  exists i. split; [by apply list_elem_of_In | by left].
Qed.

Lemma build_config_reads_options self src h1 h2 :
  h1 !! options self = h2 !! options self ->
  build_config self src h1 = build_config self src h2.
Proof.
  intros H. unfold build_config, build_config_with, dict_get, dict_mem.
  by rewrite H.
Qed.

Lemma init_run test_paths debug_info l ssl_config env_extras enable_quic w d :
  heap w !! l = Some d ->
  __init__ test_paths debug_info (Some l) ssl_config env_extras enable_quic w
  = (Ok {| test_paths := test_paths; servers := None; config_ctx := None;
           config := None;
           test_server_port := default (VBool true) (d !! "test_server_port");
           debug_info := debug_info; options := l; env_extras := env_extras;
           env_extras_cms := None; ssl_config := ssl_config;
           enable_quic := enable_quic; logging_thread_started := false |},
     set_heap (<[l := delete "test_server_port" d]> (heap w)) w).
Proof.
  intros Hl. unfold __init__, bind, gets, dict_pop. by rewrite Hl.
Qed.

(** C10: [__init__] pops ["test_server_port"] from the dict object it was
    given (the value defaults to [True]), leaves the other keys and the
    other objects as they were, and keeps the object itself: [__enter__]
    hands it to every extra, and [build_config] reads it. *)
Theorem init_pops_test_server_port test_paths debug_info l ssl_config env_extras
    enable_quic w d :
  heap w !! l = Some d ->
  pops_test_server_port w l d
    (__init__ test_paths debug_info (Some l) ssl_config env_extras enable_quic w).
Proof.
  intros Hl. unfold pops_test_server_port.
  rewrite (init_run _ _ _ _ _ _ _ _ Hl). cbn [fst snd].
  eexists. split; [reflexivity|]. cbn [test_server_port options heap set_heap].
  split; [done|]. split; [done|].
  split; [by rewrite lookup_insert_eq|].
  split; [apply (lookup_delete_eq (M := gmap string))|].
  split; [intros k Hk; by apply (lookup_delete_ne (M := gmap string))|].
  split; [by intros l' Hl'; rewrite lookup_insert_ne|].
  match goal with |- context [__enter__ (?s, ?w1)] =>
    set (self := s); set (w' := w1) end.
  destruct (enter_world self w') as (made & Hw & Hpre).
  rewrite Hw. cbn [heap logs trace].
  split; [done|].
  split.
  { intros i o. rewrite drop_app_length. intros Hin.
    pose proof (Forall_prefix _ _ _ Hpre (enter_events_options self (heap w'))) as Hall.
    rewrite Forall_forall in Hall. by apply (Hall _ Hin i o). }
  split; [|intros src h1 h2; apply (build_config_reads_options self)].
  intros Hok.
  destruct (enter_ok self w' Hok) as (cfg & Hb & Hrun & _).
  rewrite Hrun in Hw |- *. cbn [fst snd] in *.
  apply (f_equal trace) in Hw. cbn [trace logs] in Hw.
  apply app_inv_head in Hw. rewrite <- Hw.
  split.
  - intros i Hi. apply elem_of_app. right. by apply (enter_events_extra self).
  - by exists cfg.
Qed.

Lemma init_pops_test_server_port_witness :
  heap quiet_world !! 0%nat = Some example_options /\
  pops_test_server_port quiet_world 0%nat example_options
    (__init__ example_paths None (Some 0%nat) ∅ [0%nat; 1%nat] false quiet_world).
Proof.
  split; [reflexivity|].
  apply (init_pops_test_server_port example_paths None 0%nat ∅ [0%nat; 1%nat] false
           quiet_world example_options).
  reflexivity.
Defined.

(** With [options=None] the constructor raises: [None] has no [pop]. *)
Lemma init_without_options test_paths debug_info ssl_config env_extras enable_quic w :
  __init__ test_paths debug_info None ssl_config env_extras enable_quic w
  = (Raise (AttributeError "'NoneType' object has no attribute 'pop'"), w).
Proof. reflexivity. Qed.

(** ** The logging proxy *)

Lemma component_filter_forwarded m received :
  log_raw (record_of m) received = received ++ forwarded m.
Proof.
  destruct m as [[] msg]; cbn; by rewrite ?app_nil_r.
Qed.

Lemma emit_all_queue msgs :
  emit_all msgs = map (fun m => Some (record_of m)) msgs ++ [None].
Proof.
  unfold emit_all, put_sentinel. f_equal.
  change (map (fun m => Some (record_of m)) msgs)
    with ([] ++ map (fun m => Some (record_of m)) msgs).
  generalize (@nil (option LogRecord)) as q.
  induction msgs as [|m msgs IH]; intros q; cbn [fold_left map].
  - by rewrite app_nil_r.
  - rewrite IH. unfold proxy_log, record_of. by rewrite <- app_assoc.
Qed.

Lemma run_queue msgs received :
  run (map (fun m => Some (record_of m)) msgs ++ [None]) received
  = received ++ flat_map forwarded msgs.
Proof.
  revert received. induction msgs as [|m msgs IH]; intros received; cbn [map app run flat_map].
  - by rewrite app_nil_r.
  - by rewrite IH, component_filter_forwarded, <- app_assoc.
Qed.

(** C7: of the records sent through the proxy, the debug records are
    dropped, the error records arrive as warnings, and the others arrive as
    they were sent, in the order of sending; so nothing below info and no
    error arrives, and info, error, debug arrive as info, warning. *)
Theorem proxy_filters_and_rewrites :
  (forall msgs, delivered msgs = flat_map forwarded msgs) /\
  (forall msgs data, data ∈ delivered msgs ->
     (level_rank (lvl data) <= level_rank INFO)%nat /\ lvl data <> ERROR) /\
  (forall msgs msg, In (ERROR, msg) msgs ->
     In {| action := "log"; lvl := WARNING; message := msg |} (delivered msgs)) /\
  (forall a b c,
     delivered [(INFO, a); (ERROR, b); (DEBUG, c)]
     = [ {| action := "log"; lvl := INFO; message := a |};
         {| action := "log"; lvl := WARNING; message := b |} ]).
Proof.
  assert (H : forall msgs, delivered msgs = flat_map forwarded msgs).
  { intros msgs. unfold delivered. by rewrite emit_all_queue, run_queue. }
  split; [exact H|]. split; [|split].
  - intros msgs data. rewrite H. intros Hin.
    apply list_elem_of_In, in_flat_map in Hin as ([l msg] & _ & Hin).
    destruct l; cbn in Hin; try done; destruct Hin as [<-|[]]; cbn; split; (lia || done).
  - intros msgs msg Hin. rewrite H. apply in_flat_map.
    exists (ERROR, msg). split; [done|]. by left.
  - intros a b c. by rewrite H.
Qed.

(** * Further properties *)

(** ** One poll *)

Lemma after_zero w : after 0 [] w = w.
Proof. destruct w. unfold after. cbn. by rewrite N.add_0_r, app_nil_r. Qed.

Lemma try_connect_after host port ms evs w :
  try_connect (VStr host) port (after ms evs w)
  = (Ok (accepts w (clock w + ms)%N (VStr host) port),
     after (ms + probe_ms w) (evs ++ probe_events (VStr host) [port]) w).
Proof.
  unfold try_connect, bind, modify, try_finally, connect, log, advance, after. cbn.
  do 2 f_equal.
  - lia.
  - by rewrite <- !app_assoc.
Qed.

(** The probe of a host that is not a string: the socket is made, [connect]
    raises, the socket is closed, and the error goes on. *)
Lemma try_connect_not_str host port w :
  is_str host = false ->
  try_connect host port w
  = (Raise (connect_error host), logs (probe_events host [port]) w).
Proof.
  intros Hh. unfold try_connect, bind, modify, try_finally, connect, log, logs.
  destruct host; try discriminate; cbn; by rewrite <- !app_assoc.
Qed.

Lemma probe_pending_app w host t a b :
  probe_pending w host t (a ++ b)
  = probe_pending w host t a ++
    probe_pending w host (t + probe_ms w * N.of_nat (length a))%N b.
Proof.
  revert t. induction a as [|p a IH]; intros t; cbn [probe_pending app length].
  - f_equal. lia.
  - rewrite IH, <- app_assoc. do 3 f_equal. lia.
Qed.

Lemma probe_inner host (svs : list (Z * handle)) pending ms evs w :
  fold_each svs pending (fun '(port, server) pending =>
    connected <- try_connect (VStr host) port ;;
    ret (if connected then pending else pending ++ [(VStr host, port)])) (after ms evs w)
  = (Ok (pending ++ probe_pending w (VStr host) (clock w + ms)%N (map fst svs)),
     after (ms + probe_ms w * N.of_nat (length (map fst svs)))
           (evs ++ probe_events (VStr host) (map fst svs)) w).
Proof.
  revert pending ms evs. induction svs as [|[port server] svs IH]; intros pending ms evs.
  - cbn. rewrite !app_nil_r. do 2 f_equal. lia.
  - cbn [fold_each map fst probe_pending probe_events flat_map length].
    unfold bind at 1. unfold bind at 1. rewrite try_connect_after. cbn [ret].
    rewrite IH. f_equal.
    + f_equal. destruct (accepts w (clock w + ms)%N (VStr host) port); cbn [app].
      * do 2 f_equal. lia.
      * rewrite <- app_assoc. cbn [app]. do 3 f_equal. lia.
    + fold (probe_events (VStr host) (map fst svs)).
      cbn [probe_events flat_map app]. rewrite <- app_assoc. cbn [app].
      f_equal. lia.
Qed.

Lemma probe_outer host (f : fleet) pending ms evs w :
  fold_each f pending (fun '(scheme, servers) pending =>
    if String.eqb scheme "quic-transport" then ret pending
    else fold_each servers pending (fun '(port, server) pending =>
      connected <- try_connect (VStr host) port ;;
      ret (if connected then pending else pending ++ [(VStr host, port)])))
    (after ms evs w)
  = (Ok (pending ++ probe_pending w (VStr host) (clock w + ms)%N (probed_ports f)),
     after (ms + probe_ms w * N.of_nat (length (probed_ports f)))
           (evs ++ probe_events (VStr host) (probed_ports f)) w).
Proof.
  revert pending ms evs. induction f as [|[scheme svs] f IH]; intros pending ms evs.
  - cbn. rewrite !app_nil_r. do 2 f_equal. lia.
  - cbn [fold_each probed_ports flat_map]. fold (probed_ports f).
    unfold bind at 1.
    destruct (String.eqb scheme "quic-transport").
    + cbn [ret app]. apply IH.
    + rewrite probe_inner, IH. f_equal.
      * f_equal. rewrite probe_pending_app, <- app_assoc. do 3 f_equal. lia.
      * unfold probe_events. rewrite flat_map_app, length_app, <- app_assoc.
        f_equal. lia.
Qed.

(** What one poll of an entered environment does, when the host is a
    string. *)
Lemma test_servers_spec self cfg (f : fleet) w :
  config self = Some cfg -> servers self = Some f ->
  is_str (server_host cfg) = true ->
  test_servers self w
  = if is_nil (dead w f) && truthy (test_server_port self)
    then (Ok (dead w f,
              probe_pending w (server_host cfg) (clock w) (probed_ports f)),
          after (poll_ms w f) (probe_events (server_host cfg) (probed_ports f)) w)
    else (Ok (dead w f, []), w).
Proof.
  intros Hc Hs Hh. unfold test_servers. rewrite Hc, Hs. cbn [from_option].
  unfold bind at 1. cbn [ret]. unfold bind at 1. cbn [ret].
  unfold bind at 1. rewrite liveness_outer. cbn [app].
  destruct (is_nil (dead w f) && truthy (test_server_port self)); [|done].
  destruct (server_host cfg) as [| | |host]; try discriminate.
  unfold bind at 1. rewrite <- (after_zero w) at 1.
  rewrite probe_outer. cbn [app ret]. unfold poll_ms.
  rewrite N.add_0_r, N.add_0_l. done.
Qed.

(** The probes with a host that is not a string: the first one raises. *)
Lemma probe_outer_not_str host (f : fleet) pending w :
  is_str host = false ->
  fold_each f pending (fun '(scheme, servers) pending =>
    if String.eqb scheme "quic-transport" then ret pending
    else fold_each servers pending (fun '(port, server) pending =>
      connected <- try_connect host port ;;
      ret (if connected then pending else pending ++ [(host, port)]))) w
  = match probed_ports f with
    | [] => (Ok pending, w)
    | port :: _ => (Raise (connect_error host), logs (probe_events host [port]) w)
    end.
Proof.
  intros Hh. induction f as [|[scheme svs] f IH]; [done|].
  cbn [fold_each probed_ports flat_map]. fold (probed_ports f).
  unfold bind at 1.
  destruct (String.eqb scheme "quic-transport"); [cbn [ret app]; apply IH|].
  destruct svs as [|[port server] svs]; [cbn [fold_each ret map app]; apply IH|].
  cbn [fold_each map fst app]. unfold bind at 1. unfold bind at 1.
  by rewrite (try_connect_not_str host port w Hh).
Qed.

(** What one poll of an entered environment does, when the host is not a
    string: it raises at its first probe, if it gets to probe a port. *)
Lemma test_servers_not_str self cfg (f : fleet) w :
  config self = Some cfg -> servers self = Some f ->
  is_str (server_host cfg) = false ->
  test_servers self w
  = if is_nil (dead w f) && truthy (test_server_port self)
    then match probed_ports f with
         | [] => (Ok (dead w f, []), w)
         | port :: _ =>
             (Raise (connect_error (server_host cfg)),
              logs (probe_events (server_host cfg) [port]) w)
         end
    else (Ok (dead w f, []), w).
Proof.
  intros Hc Hs Hh. unfold test_servers. rewrite Hc, Hs. cbn [from_option].
  unfold bind at 1. cbn [ret]. unfold bind at 1. cbn [ret].
  unfold bind at 1. rewrite liveness_outer. cbn [app].
  destruct (is_nil (dead w f) && truthy (test_server_port self)); [|done].
  unfold bind at 1. rewrite (probe_outer_not_str _ f [] w Hh).
  by destruct (probed_ports f).
Qed.

(** X1: A poll before the environment was entered raises, and does nothing
    else: [self.config] is still [None], or [self.servers] does not exist;
    [ensure_started] raises the same error at its first poll, without
    sleeping. *)
Theorem poll_before_enter self w :
  config self = None \/ servers self = None ->
  exists e,
    test_servers self w = (Raise e, w) /\
    ensure_started self w = (Raise e, w) /\
    e = match config self with
        | None => TypeError "'NoneType' object is not subscriptable"
        | Some _ => AttributeError "'TestEnvironment' object has no attribute 'servers'"
        end.
Proof.
  intros H.
  assert (Ht : test_servers self w
    = (Raise (match config self with
              | None => TypeError "'NoneType' object is not subscriptable"
              | Some _ =>
                  AttributeError "'TestEnvironment' object has no attribute 'servers'"
              end), w)).
  { unfold test_servers. destruct (config self) as [cfg|]; [|done].
    destruct H as [H|H]; [done|]. by rewrite H. }
  eexists. split; [exact Ht|]. split; [|done].
  unfold ensure_started, ensure_started_fuel.
  unfold bind at 1, time_time, gets. unfold bind at 1.
  rewrite ensure_started_loop_S. unfold bind at 1, time_time, gets.
  replace (clock w <? clock w + total_sleep_ms)%N with true
    by (symmetry; apply N.ltb_lt; unfold total_sleep_ms; lia).
  unfold bind at 1. by rewrite Ht.
Qed.

Lemma poll_before_enter_witness :
  (config unconstructed = None \/ servers unconstructed = None) /\
  exists e,
    test_servers unconstructed quiet_world = (Raise e, quiet_world) /\
    ensure_started unconstructed quiet_world = (Raise e, quiet_world) /\
    e = match config unconstructed with
        | None => TypeError "'NoneType' object is not subscriptable"
        | Some _ => AttributeError "'TestEnvironment' object has no attribute 'servers'"
        end.
Proof.
  split; [by left|].
  apply (poll_before_enter unconstructed quiet_world). by left.
Defined.



(** The example environment entered without a [server_host] option: the
    host of the configuration is [None], and the first probe of a poll
    raises, after its socket was closed. *)
Lemma poll_without_server_host :
  server_host (config_of entered_no_host) = VNone /\
  test_servers entered_no_host.1 entered_no_host.2
  = (Raise (TypeError "str, bytes or bytearray expected, not NoneType"),
     logs [EvSocket; EvSetTimeout 100; EvConnect VNone 8000; EvClose VNone 8000]
       entered_no_host.2).
Proof. split; reflexivity. Qed.

(** X3: With [test_server_port] false a poll only asks the handles: it returns
    the dead ones and no pending entry, and connects to nothing. *)
Theorem poll_port_check_disabled self cfg (f : fleet) w :
  config self = Some cfg -> servers self = Some f ->
  truthy (test_server_port self) = false ->
  test_servers self w = (Ok (dead w f, []), w).
Proof.
  intros Hc Hs Ht. destruct (is_str (server_host cfg)) eqn:Hh.
  - rewrite (test_servers_spec self cfg f w Hc Hs Hh), Ht. by rewrite andb_false_r.
  - rewrite (test_servers_not_str self cfg f w Hc Hs Hh), Ht. by rewrite andb_false_r.
Qed.

Lemma poll_port_check_disabled_witness :
  config entered_port_check_off.1 = Some (config_of entered_port_check_off) /\
  servers entered_port_check_off.1 = Some example_fleet /\
  truthy (test_server_port entered_port_check_off.1) = false /\
  test_servers entered_port_check_off.1 entered_port_check_off.2
  = (Ok (dead entered_port_check_off.2 example_fleet, []), entered_port_check_off.2).
Proof.
  split; [reflexivity|]. split; [reflexivity|]. split; [reflexivity|].
  exact (poll_port_check_disabled entered_port_check_off.1
           (config_of entered_port_check_off) example_fleet entered_port_check_off.2
           eq_refl eq_refl eq_refl).
Defined.

Lemma probe_pending_elem w host t ports h p :
  (h, p) ∈ probe_pending w host t ports -> h = host /\ p ∈ ports.
Proof.
  revert t. induction ports as [|q ports IH]; intros t; cbn [probe_pending].
  - by intros ?%elem_of_nil.
  - intros [Hin|Hin]%elem_of_app.
    + destruct (accepts w t host q); [by apply elem_of_nil in Hin|].
      apply list_elem_of_singleton in Hin as [= -> ->]. split; [done|]. by left.
    + destruct (IH _ Hin) as [-> Hp]. split; [done|]. by right.
Qed.

(** X4: The socket calls of a poll: for each port it gets to, a socket is
    made, given its timeout of 0.1 s, connected and closed, in this order;
    the socket is closed whether the connection was made, was refused, or
    [connect] raised.  The ports it gets to are an initial part of the ports
    to probe, and all of them when the poll returns with the port check on
    and no failed entry.  With a string host the poll takes the time of its
    probes; every pending entry is the configured host with a port that was
    probed. *)
Theorem poll_closes_every_socket self cfg (f : fleet) w :
  config self = Some cfg -> servers self = Some f ->
  exists ports,
    ports `prefix_of` probed_ports f /\
    trace (test_servers self w).2
    = trace w ++ probe_events (server_host cfg) ports /\
    (is_str (server_host cfg) = true ->
     clock (test_servers self w).2
     = (clock w + probe_ms w * N.of_nat (length ports))%N) /\
    forall failed pending,
      (test_servers self w).1 = Ok (failed, pending) ->
      (failed = [] -> truthy (test_server_port self) = true ->
       ports = probed_ports f) /\
      forall h p, (h, p) ∈ pending -> h = server_host cfg /\ p ∈ ports.
Proof.
  intros Hc Hs. destruct (is_str (server_host cfg)) eqn:Hh.
  - rewrite (test_servers_spec self cfg f w Hc Hs Hh).
    destruct (dead w f) as [|d l] eqn:Hd; cbn [is_nil andb];
      [destruct (truthy (test_server_port self))|].
    + exists (probed_ports f). split; [done|]. cbn [fst snd after trace clock].
      split; [done|]. split; [done|].
      intros failed pending [= _ <-]. split; [done|].
      intros h p. apply probe_pending_elem.
    + exists []. split; [apply prefix_nil|]. cbn [fst snd probe_events flat_map length].
      rewrite app_nil_r. split; [done|]. split; [intros _; lia|].
      intros failed pending [= _ <-]. split; [done|].
      intros h p. by intros ?%elem_of_nil.
    + exists []. split; [apply prefix_nil|]. cbn [fst snd probe_events flat_map length].
      rewrite app_nil_r. split; [done|]. split; [intros _; lia|].
      intros failed pending [= <- <-]. split; [done|].
      intros h p. by intros ?%elem_of_nil.
  - rewrite (test_servers_not_str self cfg f w Hc Hs Hh).
    destruct (dead w f) as [|d l] eqn:Hd; cbn [is_nil andb];
      [destruct (truthy (test_server_port self));
         [destruct (probed_ports f) as [|port rest]|]|].
    + exists []. split; [done|]. cbn [fst snd probe_events flat_map].
      rewrite app_nil_r. split; [done|]. split; [done|].
      intros failed pending [= _ <-]. split; [done|].
      intros h p. by intros ?%elem_of_nil.
    + exists [port]. split; [by exists rest|]. cbn [fst snd logs trace].
      split; [done|]. split; [done|]. intros failed pending [=].
    + exists []. split; [apply prefix_nil|]. cbn [fst snd probe_events flat_map].
      rewrite app_nil_r. split; [done|]. split; [done|].
      intros failed pending [= _ <-]. split; [done|].
      intros h p. by intros ?%elem_of_nil.
    + exists []. split; [apply prefix_nil|]. cbn [fst snd probe_events flat_map].
      rewrite app_nil_r. split; [done|]. split; [done|].
      intros failed pending [= <- <-]. split; [done|].
      intros h p. by intros ?%elem_of_nil.
Qed.

Lemma poll_closes_every_socket_witness :
  config entered_never_accepts.1 = Some (config_of entered_never_accepts) /\
  servers entered_never_accepts.1 = Some example_fleet /\
  exists ports,
    ports `prefix_of` probed_ports example_fleet /\
    trace (test_servers entered_never_accepts.1 entered_never_accepts.2).2
    = trace entered_never_accepts.2 ++
      probe_events (server_host (config_of entered_never_accepts)) ports /\
    (is_str (server_host (config_of entered_never_accepts)) = true ->
     clock (test_servers entered_never_accepts.1 entered_never_accepts.2).2
     = (clock entered_never_accepts.2 +
        probe_ms entered_never_accepts.2 * N.of_nat (length ports))%N) /\
    forall failed pending,
      (test_servers entered_never_accepts.1 entered_never_accepts.2).1
      = Ok (failed, pending) ->
      (failed = [] -> truthy (test_server_port entered_never_accepts.1) = true ->
       ports = probed_ports example_fleet) /\
      forall h p, (h, p) ∈ pending ->
        h = server_host (config_of entered_never_accepts) /\ p ∈ ports.
Proof.
  split; [reflexivity|]. split; [reflexivity|].
  exact (poll_closes_every_socket entered_never_accepts.1
           (config_of entered_never_accepts) example_fleet entered_never_accepts.2
           eq_refl eq_refl).
Defined.

Lemma probe_pending_all_accept w host t ports :
  (forall t' p, accepts w t' host p = true) -> probe_pending w host t ports = [].
Proof.
  intros H. revert t. induction ports as [|p ports IH]; intros t; cbn [probe_pending].
  - done.
  - by rewrite H, IH.
Qed.

Lemma probe_pending_none_accept w host t ports :
  (forall t' p, accepts w t' host p = false) ->
  probe_pending w host t ports = map (pair host) ports.
Proof.
  intros H. revert t. induction ports as [|p ports IH]; intros t; cbn [probe_pending map].
  - done.
  - by rewrite H, IH.
Qed.

(** X5: With a string for the configured host: when every handle is alive
    and the host accepts a connection on every port, a poll returns no
    failed and no pending entry; when the host accepts none, with the port
    check on, every probed port is pending, in the order of the fleet. *)
Theorem poll_all_or_nothing self cfg (f : fleet) host w :
  config self = Some cfg -> servers self = Some f ->
  server_host cfg = VStr host ->
  dead w f = [] ->
  ((forall t p, accepts w t (server_host cfg) p = true) ->
   (test_servers self w).1 = Ok ([], [])) /\
  ((forall t p, accepts w t (server_host cfg) p = false) ->
   truthy (test_server_port self) = true ->
   (test_servers self w).1
   = Ok ([], map (pair (server_host cfg)) (probed_ports f))).
Proof.
  intros Hc Hs Hh Hd.
  rewrite (test_servers_spec self cfg f w Hc Hs), Hd by (by rewrite Hh).
  cbn [is_nil andb]. split.
  - intros Ha. destruct (truthy (test_server_port self)); cbn [fst]; [|done].
    by rewrite probe_pending_all_accept.
  - intros Ha ->. cbn [fst]. by rewrite probe_pending_none_accept.
Qed.

Lemma poll_all_or_nothing_witness :
  config entered_all_ready.1 = Some (config_of entered_all_ready) /\
  servers entered_all_ready.1 = Some example_fleet /\
  server_host (config_of entered_all_ready) = VStr "127.0.0.1" /\
  dead entered_all_ready.2 example_fleet = [] /\
  ((forall t p,
      accepts entered_all_ready.2 t (server_host (config_of entered_all_ready)) p = true) ->
   (test_servers entered_all_ready.1 entered_all_ready.2).1 = Ok ([], [])) /\
  ((forall t p,
      accepts entered_all_ready.2 t (server_host (config_of entered_all_ready)) p = false) ->
   truthy (test_server_port entered_all_ready.1) = true ->
   (test_servers entered_all_ready.1 entered_all_ready.2).1
   = Ok ([], map (pair (server_host (config_of entered_all_ready)))
                 (probed_ports example_fleet))).
Proof.
  split; [reflexivity|]. split; [reflexivity|]. split; [reflexivity|].
  split; [reflexivity|].
  exact (poll_all_or_nothing entered_all_ready.1 (config_of entered_all_ready)
           example_fleet "127.0.0.1" entered_all_ready.2
           eq_refl eq_refl eq_refl eq_refl).
Defined.

Lemma probed_ports_quic_only (f : fleet) :
  Forall (fun entry => fst entry = "quic-transport") f -> probed_ports f = [].
Proof.
  induction 1 as [|[scheme svs] f Hq _ IH]; [done|].
  cbn in Hq. subst scheme. cbn [probed_ports flat_map]. fold (probed_ports f).
  by rewrite IH.
Qed.

(** X6: The servers of the QUIC scheme are not probed: with a fleet of QUIC
    servers only, a poll connects to nothing and reports no pending entry,
    even when no port accepts a connection. *)
Theorem poll_skips_quic self cfg (f : fleet) w :
  config self = Some cfg -> servers self = Some f ->
  Forall (fun entry => fst entry = "quic-transport") f ->
  (test_servers self w).1 = Ok (dead w f, []) /\
  trace (test_servers self w).2 = trace w /\
  clock (test_servers self w).2 = clock w.
Proof.
  intros Hc Hs Hq. destruct (is_str (server_host cfg)) eqn:Hh.
  - rewrite (test_servers_spec self cfg f w Hc Hs Hh).
    unfold poll_ms. rewrite (probed_ports_quic_only f Hq).
    destruct (is_nil (dead w f) && truthy (test_server_port self));
      cbn [fst snd probe_pending probe_events flat_map after trace clock length];
      [|done].
    rewrite app_nil_r. repeat split. lia.
  - rewrite (test_servers_not_str self cfg f w Hc Hs Hh).
    rewrite (probed_ports_quic_only f Hq).
    by destruct (is_nil (dead w f) && truthy (test_server_port self)).
Qed.

Lemma poll_skips_quic_witness :
  config entered_quic_only.1 = Some (config_of entered_quic_only) /\
  servers entered_quic_only.1 = Some quic_fleet /\
  Forall (fun entry => fst entry = "quic-transport") quic_fleet /\
  (test_servers entered_quic_only.1 entered_quic_only.2).1
  = Ok (dead entered_quic_only.2 quic_fleet, []) /\
  trace (test_servers entered_quic_only.1 entered_quic_only.2).2
  = trace entered_quic_only.2 /\
  clock (test_servers entered_quic_only.1 entered_quic_only.2).2
  = clock entered_quic_only.2.
Proof.
  assert (Hq : Forall (fun entry => fst entry = "quic-transport") quic_fleet)
    by (repeat constructor).
  split; [reflexivity|]. split; [reflexivity|]. split; [exact Hq|].
  exact (poll_skips_quic entered_quic_only.1 (config_of entered_quic_only) quic_fleet
           entered_quic_only.2 eq_refl eq_refl Hq).
Defined.

(** ** Waiting for the servers *)

(** Without a [server_host] option [ensure_started] ends with the error of
    the first probe, although every port would accept a connection. *)
Lemma ensure_started_without_server_host :
  (ensure_started entered_no_host.1 entered_no_host.2).1
  = Raise (TypeError "str, bytes or bytearray expected, not NoneType").
Proof. reflexivity. Qed.

(** X7: The first poll decides when it can: if it finds dead servers,
    [ensure_started] raises at once with the message that lists them; if it
    finds nothing failed and nothing pending, [ensure_started] returns at
    once.  In both cases there is no sleep: the world is the one the poll
    left. *)
Theorem ensure_started_first_poll self w failed pending w1 :
  test_servers self w = (Ok (failed, pending), w1) ->
  (failed <> [] ->
   ensure_started self w = (Raise (EnvironmentError (failed_message failed)), w1)) /\
  (failed = [] -> pending = [] -> ensure_started self w = (Ok (Some tt), w1)).
Proof.
  intros Ht.
  assert (Hstep : ensure_started self w
    = (exit <- (if negb (is_nil failed) then ret (Some (Fell (Some failed)))
                else if is_nil pending then ret (Some Returned)
                else time_sleep each_sleep_ms ;;;
                     ensure_started_loop 60 self (clock w + total_sleep_ms)
                       (Some failed)) ;;
       match exit with
       | None => ret None
       | Some Returned => ret (Some tt)
       | Some (Fell None) => raise (UnboundLocalError "failed")
       | Some (Fell (Some failed)) => raise (EnvironmentError (failed_message failed))
       end) w1).
  { unfold ensure_started, ensure_started_fuel.
    unfold bind at 1, time_time, gets. unfold bind at 1.
    rewrite ensure_started_loop_S. unfold bind at 1, time_time, gets.
    replace (clock w <? clock w + total_sleep_ms)%N with true
      by (symmetry; apply N.ltb_lt; unfold total_sleep_ms; lia).
    unfold bind at 1. rewrite Ht. unfold bind at 3. done. }
  rewrite Hstep. split.
  - intros Hne. by destruct failed.
  - by intros -> ->.
Qed.

Lemma ensure_started_first_poll_witness :
  test_servers entered_https_dead.1 entered_https_dead.2
  = (Ok ([("https", 8443)], []), entered_https_dead.2) /\
  ([("https", 8443)] <> [] ->
   ensure_started entered_https_dead.1 entered_https_dead.2
   = (Raise (EnvironmentError (failed_message [("https", 8443)])),
      entered_https_dead.2)) /\
  ([("https", 8443)] = [] -> @nil (value * Z) = [] ->
   ensure_started entered_https_dead.1 entered_https_dead.2
   = (Ok (Some tt), entered_https_dead.2)).
Proof.
  split; [reflexivity|].
  exact (ensure_started_first_poll entered_https_dead.1 entered_https_dead.2
           [("https", 8443)] [] entered_https_dead.2 eq_refl).
Defined.



Lemma ensure_started_loop_duration fuel self cfg (f : fleet) end_time failed0 pm w0 :
  config self = Some cfg -> servers self = Some f ->
  probe_ms w0 = pm ->
  (clock w0 < end_time + pm * N.of_nat (length (probed_ports f)) + each_sleep_ms)%N ->
  (clock (ensure_started_loop fuel self end_time failed0 w0).2
   < end_time + pm * N.of_nat (length (probed_ports f)) + each_sleep_ms)%N.
Proof.
  intros Hc Hs. revert failed0 w0.
  induction fuel as [|fuel IH]; intros failed0 w0 Hpm Hlt; [done|].
  rewrite ensure_started_loop_S. unfold bind at 1, time_time, gets.
  destruct (clock w0 <? end_time)%N eqn:Hnow; [|done].
  apply N.ltb_lt in Hnow.
  unfold bind at 1. destruct (is_str (server_host cfg)) eqn:Hh.
  - rewrite (test_servers_spec self cfg f w0 Hc Hs Hh).
    unfold poll_ms. rewrite Hpm.
    destruct (is_nil (dead w0 f) && truthy (test_server_port self)) eqn:Hprobe.
    + apply andb_prop in Hprobe as [Hd _]. rewrite Hd. cbn [negb].
      destruct (is_nil (probe_pending _ _ _ _)).
      * cbn [ret snd after clock]. unfold each_sleep_ms. lia.
      * unfold bind at 1, time_sleep. apply IH; [by cbn|].
        cbn [clock advance after log]. unfold each_sleep_ms. lia.
    + destruct (is_nil (dead w0 f)); cbn [negb is_nil].
      * cbn [ret snd]. lia.
      * cbn [ret snd]. lia.
  - rewrite (test_servers_not_str self cfg f w0 Hc Hs Hh).
    destruct (is_nil (dead w0 f) && truthy (test_server_port self)) eqn:Hprobe;
      [destruct (probed_ports f) as [|port rest]|].
    + destruct (is_nil (dead w0 f)); cbn [negb is_nil ret snd]; lia.
    + cbn [snd logs clock]. cbn [length] in *. lia.
    + destruct (is_nil (dead w0 f)); cbn [negb is_nil ret snd]; lia.
Qed.

(** X9: [ensure_started] on an entered environment does not block for long: it
    is back before thirty seconds, the time of one poll and one sleep have
    passed. *)
Theorem ensure_started_duration self cfg (f : fleet) w :
  config self = Some cfg -> servers self = Some f ->
  (clock (ensure_started self w).2
   < clock w + total_sleep_ms + poll_ms w f + each_sleep_ms)%N.
Proof.
  intros Hc Hs. unfold ensure_started, ensure_started_fuel.
  unfold bind at 1, time_time, gets. unfold bind at 1.
  pose proof (ensure_started_loop_duration 61 self cfg f (clock w + total_sleep_ms)
                None (probe_ms w) w Hc Hs eq_refl) as H.
  fold (poll_ms w f) in H.
  destruct (ensure_started_loop 61 self (clock w + total_sleep_ms) None w)
    as [[[[|[fl|]]|]|e] w1]; cbn [snd raise ret] in *;
    apply H; unfold total_sleep_ms, each_sleep_ms; lia.
Qed.

Lemma ensure_started_duration_witness :
  config entered_never_accepts.1 = Some (config_of entered_never_accepts) /\
  servers entered_never_accepts.1 = Some example_fleet /\
  (clock (ensure_started entered_never_accepts.1 entered_never_accepts.2).2
   < clock entered_never_accepts.2 + total_sleep_ms +
     poll_ms entered_never_accepts.2 example_fleet + each_sleep_ms)%N.
Proof.
  split; [reflexivity|]. split; [reflexivity|].
  exact (ensure_started_duration entered_never_accepts.1
           (config_of entered_never_accepts) example_fleet entered_never_accepts.2
           eq_refl eq_refl).
Defined.

Lemma dead_all_alive w (f : fleet) :
  (forall t h, alive w t h = true) -> dead w f = [].
Proof.
  intros Ha. unfold dead. induction f as [|[scheme svs] f IH]; [done|].
  cbn [flat_map]. rewrite IH, app_nil_r. unfold dead_of.
  induction svs as [|[port server] svs IHs]; [done|].
  cbn [flat_map]. by rewrite Ha, IHs.
Qed.

Lemma probe_pending_ready w host T t ports :
  (forall t' p, (T <= t')%N -> accepts w t' host p = true) ->
  (T <= t)%N -> probe_pending w host t ports = [].
Proof.
  intros Ha. revert t. induction ports as [|p ports IH]; intros t Ht; cbn [probe_pending].
  - done.
  - rewrite (Ha t p Ht), IH; [done|lia].
Qed.

Lemma ensure_started_loop_becomes_ready fuel self cfg (f : fleet) end_time T failed0 w0 :
  config self = Some cfg -> servers self = Some f ->
  is_str (server_host cfg) = true ->
  (forall t h, alive w0 t h = true) ->
  (forall t p, (T <= t)%N -> accepts w0 t (server_host cfg) p = true) ->
  (T + poll_ms w0 f + each_sleep_ms <= end_time)%N ->
  (clock w0 < end_time)%N ->
  (end_time <= clock w0 + each_sleep_ms * N.of_nat fuel)%N ->
  (ensure_started_loop (S fuel) self end_time failed0 w0).1 = Ok (Some Returned).
Proof.
  intros Hc Hs Hh. revert failed0 w0.
  induction fuel as [|fuel IH]; intros failed0 w0 Halive Hacc HT Hnow Hfuel; [lia|].
  rewrite ensure_started_loop_S. unfold bind at 1, time_time, gets.
  replace (clock w0 <? end_time)%N with true by (symmetry; by apply N.ltb_lt).
  unfold bind at 1. rewrite (test_servers_spec self cfg f w0 Hc Hs Hh).
  rewrite (dead_all_alive w0 f Halive). cbn [is_nil andb negb].
  destruct (truthy (test_server_port self)); [|done].
  destruct (is_nil (probe_pending w0 (server_host cfg) (clock w0) (probed_ports f)))
    eqn:Hp; [done|].
  assert (Hearly : (clock w0 < T)%N).
  { apply N.lt_nge. intros Hge.
    by rewrite (probe_pending_ready w0 _ T _ _ Hacc Hge) in Hp. }
  unfold bind at 1, time_sleep. apply IH.
  - exact Halive.
  - exact Hacc.
  - exact HT.
  - cbn [clock advance log after]. unfold each_sleep_ms in *. lia.
  - cbn [clock advance log after]. unfold each_sleep_ms in *. lia.
Qed.

(** X10: With a string for the configured host: if the servers stay alive
    and the host accepts connections on every port from some time on, early
    enough for one more poll and one more sleep to fit into the thirty
    seconds, then [ensure_started] returns. *)
Theorem ensure_started_becomes_ready self cfg (f : fleet) host T w :
  config self = Some cfg -> servers self = Some f ->
  server_host cfg = VStr host ->
  (forall t h, alive w t h = true) ->
  (forall t p, (T <= t)%N -> accepts w t (server_host cfg) p = true) ->
  (T + poll_ms w f + each_sleep_ms <= clock w + total_sleep_ms)%N ->
  (ensure_started self w).1 = Ok (Some tt).
Proof.
  intros Hc Hs Hh Halive Hacc HT. unfold ensure_started, ensure_started_fuel.
  unfold bind at 1, time_time, gets. unfold bind at 1.
  assert (Hstr : is_str (server_host cfg) = true) by (by rewrite Hh).
  pose proof (ensure_started_loop_becomes_ready 60 self cfg f (clock w + total_sleep_ms)
                T None w Hc Hs Hstr Halive Hacc HT) as H.
  destruct (ensure_started_loop 61 self (clock w + total_sleep_ms) None w) as [r w1].
  cbn [fst] in H. rewrite H; [done|..]; unfold total_sleep_ms, each_sleep_ms; lia.
Qed.

Lemma ensure_started_becomes_ready_witness :
  config (entered_accepts_from 2000).1 = Some (config_of (entered_accepts_from 2000)) /\
  servers (entered_accepts_from 2000).1 = Some example_fleet /\
  server_host (config_of (entered_accepts_from 2000)) = VStr "127.0.0.1" /\
  (forall t h, alive (entered_accepts_from 2000).2 t h = true) /\
  (forall t p, (2000 <= t)%N ->
     accepts (entered_accepts_from 2000).2 t
       (server_host (config_of (entered_accepts_from 2000))) p = true) /\
  (2000 + poll_ms (entered_accepts_from 2000).2 example_fleet + each_sleep_ms
   <= clock (entered_accepts_from 2000).2 + total_sleep_ms)%N /\
  (ensure_started (entered_accepts_from 2000).1 (entered_accepts_from 2000).2).1
  = Ok (Some tt).
Proof.
  assert (Ha : forall t h, alive (entered_accepts_from 2000).2 t h = true)
    by (intros t h; reflexivity).
  assert (Hacc : forall t p, (2000 <= t)%N ->
     accepts (entered_accepts_from 2000).2 t
       (server_host (config_of (entered_accepts_from 2000))) p = true).
  { intros t p Ht. change ((2000 <=? t)%N = true). by apply N.leb_le. }
  assert (Hb : (2000 + poll_ms (entered_accepts_from 2000).2 example_fleet + each_sleep_ms
                <= clock (entered_accepts_from 2000).2 + total_sleep_ms)%N)
    by (vm_compute; discriminate).
  split; [reflexivity|]. split; [reflexivity|]. split; [reflexivity|].
  split; [exact Ha|]. split; [exact Hacc|]. split; [exact Hb|].
  exact (ensure_started_becomes_ready (entered_accepts_from 2000).1
           (config_of (entered_accepts_from 2000)) example_fleet "127.0.0.1" 2000
           (entered_accepts_from 2000).2 eq_refl eq_refl eq_refl Ha Hacc Hb).
Defined.

(** ** More on the assembled configuration *)

(** X11: Without a root entry in the test paths, or without a tests path in the
    root entry, [build_config] raises the key error; [__enter__] then fails
    with the logging proxy entered and nothing else done: with that key
    error, or, on an object whose logging thread was started before, with
    the error of starting it again. *)
Theorem build_config_without_root upd self src h w :
  test_paths self !! "/" = None \/
  (exists paths, test_paths self !! "/" = Some paths /\ paths !! "tests_path" = None) ->
  exists key,
    build_config_with upd self src h = Raise (KeyError key) /\
    (key = "/" \/ key = "tests_path") /\
    (raises w (EvEnter ServerLoggingCtx) = None ->
     (__enter__ (self, w)).1
     = Raise (if logging_thread_started self then RuntimeError thread_msg
              else KeyError key) /\
     trace (__enter__ (self, w)).2.2 = trace w ++ [EvEnter ServerLoggingCtx]).
Proof.
  intros H.
  assert (Hp : exists key, serve_path (test_paths self) = Raise (KeyError key) /\
                           (key = "/" \/ key = "tests_path")).
  { unfold serve_path. destruct H as [->|(paths & -> & ->)]; eexists; split; eauto. }
  destruct Hp as (key & Hp & Hkey). exists key.
  assert (Hb : forall upd' src' h', build_config_with upd' self src' h' = Raise (KeyError key)).
  { intros. unfold build_config_with. by rewrite Hp. }
  split; [apply Hb|]. split; [done|]. intros Hr.
  destruct (enter_run self w) as (self' & -> & _).
  unfold enter_outcome, build_config. rewrite Hr, Hb.
  by destruct (logging_thread_started self).
Qed.

Lemma build_config_without_root_witness :
  (test_paths without_root !! "/" = None \/
   (exists paths, test_paths without_root !! "/" = Some paths /\
                  paths !! "tests_path" = None)) /\
  exists key,
    build_config_with update without_root (config_src quiet_world) (heap quiet_world)
    = Raise (KeyError key) /\
    (key = "/" \/ key = "tests_path") /\
    (raises quiet_world (EvEnter ServerLoggingCtx) = None ->
     (__enter__ (without_root, quiet_world)).1
     = Raise (if logging_thread_started without_root then RuntimeError thread_msg
              else KeyError key) /\
     trace (__enter__ (without_root, quiet_world)).2.2
     = trace quiet_world ++ [EvEnter ServerLoggingCtx]).
Proof.
  split; [by left|].
  apply (build_config_without_root update without_root (config_src quiet_world)
           (heap quiet_world) quiet_world).
  by left.
Defined.

(** X12: Three fields of the assembled configuration never come from the
    override document, whatever [config.update] does with it: the document
    root is the root tests path; the server host is the [server_host] option,
    or [None] without it; the TLS settings are the caller's [ssl_config] with
    [encrypt_after_connect] replaced by the option of that name, or [False]
    without it. *)
Theorem build_config_fields_from_caller upd self src h root :
  serve_path (test_paths self) = Ok root ->
  exists cfg,
    build_config_with upd self src h = Ok cfg /\
    doc_root cfg = root /\
    server_host cfg = dict_get (options self) "server_host" VNone h /\
    ssl cfg !! "encrypt_after_connect"
    = Some (dict_get (options self) "encrypt_after_connect" (VBool false) h) /\
    (forall k, k <> "encrypt_after_connect" -> ssl cfg !! k = ssl_config self !! k).
Proof.
  intros Hp. unfold build_config_with. rewrite Hp.
  eexists. split; [reflexivity|].
  do 2 destruct (dict_mem _ _ _); cbn;
    (split; [done|]); (split; [done|]);
    (split; [apply (lookup_insert_eq (M := gmap string))|]);
    intros k Hk; by apply (lookup_insert_ne (M := gmap string)).
Qed.

Lemma build_config_fields_from_caller_witness :
  serve_path (test_paths with_ssl) = Ok "/wpt" /\
  exists cfg,
    build_config_with update with_ssl (source_with override_hosts) (heap quiet_world)
    = Ok cfg /\
    doc_root cfg = "/wpt" /\
    server_host cfg = dict_get (options with_ssl) "server_host" VNone (heap quiet_world) /\
    ssl cfg !! "encrypt_after_connect"
    = Some (dict_get (options with_ssl) "encrypt_after_connect" (VBool false)
              (heap quiet_world)) /\
    (forall k, k <> "encrypt_after_connect" -> ssl cfg !! k = ssl_config with_ssl !! k).
Proof.
  split; [reflexivity|].
  apply (build_config_fields_from_caller update with_ssl (source_with override_hosts)
           (heap quiet_world) "/wpt").
  reflexivity.
Defined.

(** X13: The [browser_host] and [bind_address] options win over everything when
    they are present, also with the value [None]; when one is absent and
    there is no override document, the field keeps the value of the fresh
    builder. *)
Theorem build_config_host_options upd self src h root :
  serve_path (test_paths self) = Ok root ->
  exists cfg,
    build_config_with upd self src h = Ok cfg /\
    (dict_mem (options self) "browser_host" h = true ->
     browser_host cfg = dict_get (options self) "browser_host" VNone h) /\
    (dict_mem (options self) "bind_address" h = true ->
     bind_address cfg = dict_get (options self) "bind_address" VNone h) /\
    (config_json src root = None ->
     (dict_mem (options self) "browser_host" h = false ->
      browser_host cfg = browser_host (new_builder src)) /\
     (dict_mem (options self) "bind_address" h = false ->
      bind_address cfg = bind_address (new_builder src))).
Proof.
  intros Hp. unfold build_config_with. rewrite Hp.
  eexists. split; [reflexivity|].
  destruct (dict_mem (options self) "browser_host" h),
           (dict_mem (options self) "bind_address" h); cbn;
    (split; [done|]); (split; [done|]); intros Hj; rewrite ?Hj; by split.
Qed.

Lemma build_config_host_options_witness :
  serve_path (test_paths constructed_quiet.1) = Ok "/wpt" /\
  exists cfg,
    build_config_with update constructed_quiet.1 (config_src constructed_quiet.2)
      (heap constructed_quiet.2) = Ok cfg /\
    (dict_mem (options constructed_quiet.1) "browser_host" (heap constructed_quiet.2) = true ->
     browser_host cfg
     = dict_get (options constructed_quiet.1) "browser_host" VNone (heap constructed_quiet.2)) /\
    (dict_mem (options constructed_quiet.1) "bind_address" (heap constructed_quiet.2) = true ->
     bind_address cfg
     = dict_get (options constructed_quiet.1) "bind_address" VNone (heap constructed_quiet.2)) /\
    (config_json (config_src constructed_quiet.2) "/wpt" = None ->
     (dict_mem (options constructed_quiet.1) "browser_host" (heap constructed_quiet.2) = false ->
      browser_host cfg = browser_host (new_builder (config_src constructed_quiet.2))) /\
     (dict_mem (options constructed_quiet.1) "bind_address" (heap constructed_quiet.2) = false ->
      bind_address cfg = bind_address (new_builder (config_src constructed_quiet.2)))).
Proof.
  split; [reflexivity|].
  apply (build_config_host_options update constructed_quiet.1
           (config_src constructed_quiet.2) (heap constructed_quiet.2) "/wpt").
  reflexivity.
Defined.

(** ** More on the options dict *)

(** X14: The pop of [__init__] is seen by the next object built from the same
    dict: whatever [test_server_port] was, a second [TestEnvironment]
    constructed from that dict finds the key gone, gets [True], and changes
    nothing. *)
Theorem init_twice_defaults tp di ssl ex q tp2 di2 ssl2 ex2 q2 l w d :
  heap w !! l = Some d ->
  exists self2,
    __init__ tp2 di2 (Some l) ssl2 ex2 q2 (__init__ tp di (Some l) ssl ex q w).2
    = (Ok self2, (__init__ tp di (Some l) ssl ex q w).2) /\
    test_server_port self2 = VBool true /\
    options self2 = l.
Proof.
  intros Hl. rewrite (init_run tp di l ssl ex q w d Hl). cbn [snd].
  set (w1 := set_heap (<[l:=delete "test_server_port" d]> (heap w)) w).
  assert (Hl1 : heap w1 !! l = Some (delete "test_server_port" d))
    by apply lookup_insert_eq.
  rewrite (init_run tp2 di2 l ssl2 ex2 q2 w1 _ Hl1).
  eexists. split.
  { f_equal. unfold w1, set_heap. cbn. f_equal.
    rewrite insert_insert_eq. f_equal. apply (delete_delete_eq (M := gmap string)). }
  split; [|reflexivity].
  cbn [test_server_port].
  replace (delete "test_server_port" d !! "test_server_port") with (@None value);
    [done|].
  symmetry. apply (lookup_delete_eq (M := gmap string)).
Qed.

Lemma init_twice_defaults_witness :
  heap world_port_check_off !! 0%nat
  = Some (<["test_server_port" := VBool false]> example_options) /\
  exists self2,
    __init__ example_paths None (Some 0%nat) ∅ [] true
      (__init__ example_paths None (Some 0%nat) ∅ [] false world_port_check_off).2
    = (Ok self2,
       (__init__ example_paths None (Some 0%nat) ∅ [] false world_port_check_off).2) /\
    test_server_port self2 = VBool true /\
    options self2 = 0%nat.
Proof.
  split; [reflexivity|].
  apply (init_twice_defaults example_paths None ∅ [] false example_paths None ∅ [] true
           0%nat world_port_check_off
           (<["test_server_port" := VBool false]> example_options)).
  reflexivity.
Defined.

(** ** More on leaving the environment *)

Lemma extends_ret {A} (a : A) : extends (ret a).
Proof. by intros s r s' [= _ <-]. Qed.

Lemma extends_raise {A} e : extends (@raise St A e).
Proof. by intros s r s' [= _ <-]. Qed.

Lemma extends_bind {A B} (m : M St A) (k : A -> M St B) :
  extends m -> (forall a, extends (k a)) -> extends (bind m k).
Proof.
  intros Hm Hk s r s'. unfold bind. destruct (m s) as [[a|e] s1] eqn:E.
  - intros H. etrans; [by eapply Hm | by eapply Hk].
  - intros [= _ <-]. by eapply Hm.
Qed.

Lemma extends_call ev : extends (liftW (call ev)).
Proof.
  intros [self w] r s'. unfold liftW, call.
  destruct (raises w ev); intros [= _ <-]; cbn; by apply prefix_app_r.
Qed.

Lemma extends_from_option {A} e (o : option A) : extends (from_option e o).
Proof. destruct o; [apply extends_ret | apply extends_raise]. Qed.

Lemma extends_set_self g : extends (set_self g).
Proof. by intros [self w] r s' [= _ <-]. Qed.

Lemma extends_for_each {A} (l : list A) body :
  (forall x, extends (body x)) -> extends (for_each l body).
Proof.
  intros Hb. induction l as [|x l IH]; cbn [for_each].
  - apply extends_ret.
  - apply extends_bind; [apply Hb | intros _; apply IH].
Qed.

(** X15: The first thing [__exit__] does is restore the default handler of the
    interrupt signal: in whatever state the object is, entered or not, and
    whatever fails later, that call is made before any other. *)
Theorem exit_restores_interrupts_first self w :
  exists rest,
    trace (__exit__ (self, w)).2.2 = trace w ++ EvSignal SIG_DFL :: rest.
Proof.
  unfold __exit__. unfold bind at 1.
  destruct (liftW (call (EvSignal SIG_DFL)) (self, w)) as [[[]|e] s1] eqn:E.
  - assert (Hs1 : trace s1.2 = trace w ++ [EvSignal SIG_DFL]).
    { revert E. unfold liftW, call. by destruct (raises w _); intros [= <-]. }
    match goal with |- context [trace (?k s1).2.2] =>
      assert (Hk : extends k) end.
    { apply extends_bind; [by intros s r s' [= _ <-]|intros self0].
      apply extends_bind; [apply extends_from_option|intros f].
      apply extends_bind.
      { apply extends_for_each. intros [scheme svs].
        apply extends_for_each. intros [port server]. apply extends_call. }
      intros _. apply extends_bind; [apply extends_from_option|intros cms].
      apply extends_bind; [apply extends_for_each; intros cm; apply extends_call|].
      intros _. apply extends_bind; [apply extends_set_self|intros _].
      apply extends_bind; [apply extends_call|intros _].
      apply extends_bind; [apply extends_call|intros _].
      apply extends_bind; [apply extends_from_option|intros _].
      apply extends_bind; [apply extends_call|intros _]. apply extends_call. }
    match goal with |- context [trace (?k s1).2.2] =>
      destruct (k s1) as [r s2] eqn:E2 end.
    destruct (Hk _ _ _ E2) as [rest Hrest]. cbn [snd].
    exists rest. by rewrite Hrest, Hs1, <- app_assoc.
  - exists []. cbn [snd]. revert E. unfold liftW, call.
    by destruct (raises w _); intros [= _ <-].
Qed.

Lemma exit_without_servers self w :
  servers self = None ->
  __exit__ (self, w)
  = (match raises w (EvSignal SIG_DFL) with
     | Some e => Raise e
     | None => Raise (AttributeError "'TestEnvironment' object has no attribute 'servers'")
     end, (self, logs [EvSignal SIG_DFL] w)).
Proof.
  intros Hs. unfold __exit__.
  replace (self, w) with (self, logs [] w) by (by rewrite logs_nil).
  unfold bind at 1. rewrite call_lift. cbn [app].
  destruct (raises w (EvSignal SIG_DFL)); cbn [to_result]; [done|].
  unfold bind at 1. cbn [get_self gets fst]. by rewrite Hs.
Qed.

(** X16: [__exit__] on an object that was never entered raises after that one
    call: the attribute [servers] does not exist, nothing is killed and
    nothing is left. *)
Theorem exit_before_enter self w :
  servers self = None ->
  __exit__ (self, w)
  = (match raises w (EvSignal SIG_DFL) with
     | Some e => Raise e
     | None => Raise (AttributeError "'TestEnvironment' object has no attribute 'servers'")
     end, (self, logs [EvSignal SIG_DFL] w)).
Proof. apply exit_without_servers. Qed.

Lemma exit_before_enter_witness :
  servers constructed_quiet.1 = None /\
  __exit__ (constructed_quiet.1, constructed_quiet.2)
  = (match raises constructed_quiet.2 (EvSignal SIG_DFL) with
     | Some e => Raise e
     | None => Raise (AttributeError "'TestEnvironment' object has no attribute 'servers'")
     end, (constructed_quiet.1, logs [EvSignal SIG_DFL] constructed_quiet.2)).
Proof.
  split; [reflexivity|].
  exact (exit_before_enter constructed_quiet.1 constructed_quiet.2 eq_refl).
Defined.

(** What [__exit__] does when no call raises. *)
Lemma exit_ok self w (f : fleet) cms :
  servers self = Some f -> env_extras_cms self = Some cms ->
  is_Some (config_ctx self) ->
  Forall (fun ev => raises w ev = None) (exit_events f cms) ->
  __exit__ (self, w)
  = (Ok tt, (with_env_extras_cms None self, logs (exit_events f cms) w)).
Proof.
  intros Hs Hc [cfg Hcfg] Hall. unfold exit_events in *.
  apply Forall_app in Hall as [Hsig Hall]. apply Forall_app in Hall as [Hk Hall].
  apply Forall_app in Hall as [He Hlast].
  apply Forall_cons in Hsig as [Hsig _].
  apply Forall_cons in Hlast as [H1 Hlast]. apply Forall_cons in Hlast as [H2 Hlast].
  apply Forall_cons in Hlast as [H3 Hlast]. apply Forall_cons in Hlast as [H4 _].
  unfold __exit__.
  replace (self, w) with (self, logs [] w) by (by rewrite logs_nil).
  unfold bind at 1. rewrite call_lift, Hsig. cbn [to_result app].
  unfold bind at 1. cbn [get_self gets fst]. rewrite Hs. cbn [from_option].
  unfold bind at 1. cbn [ret]. unfold bind at 1. rewrite kill_outer.
  rewrite (attempt_none _ _ Hk). cbn [fst snd to_result].
  rewrite Hc. cbn [from_option]. unfold bind at 1. cbn [ret].
  unfold bind at 1. rewrite exit_extras.
  rewrite (attempt_none _ _ He). cbn [fst snd to_result].
  unfold bind at 1. cbn [set_self modify].
  unfold bind at 1. rewrite call_lift, H1. cbn [to_result].
  unfold bind at 1. rewrite call_lift, H2. cbn [to_result].
  rewrite Hcfg. cbn [from_option]. unfold bind at 1. cbn [ret].
  unfold bind at 1. rewrite call_lift, H3. cbn [to_result].
  rewrite call_lift, H4. cbn [to_result].
  by rewrite <- !app_assoc.
Qed.

(** What [__exit__] does when a kill, or the exit of an extra, raises. *)
Lemma exit_early_failure self w (f : fleet) cms e :
  servers self = Some f -> env_extras_cms self = Some cms ->
  raises w (EvSignal SIG_DFL) = None ->
  (attempt (raises w) (exit_events_early f cms)).2 = Some e ->
  __exit__ (self, w)
  = (Raise e,
     (self, logs (EvSignal SIG_DFL :: (attempt (raises w) (exit_events_early f cms)).1) w)).
Proof.
  intros Hs Hc Hsig. unfold exit_events_early. rewrite attempt_app_proj.
  unfold __exit__.
  replace (self, w) with (self, logs [] w) by (by rewrite logs_nil).
  unfold bind at 1. rewrite call_lift, Hsig. cbn [to_result app].
  unfold bind at 1. cbn [get_self gets fst]. rewrite Hs. cbn [from_option].
  unfold bind at 1. cbn [ret]. unfold bind at 1. rewrite kill_outer.
  destruct (attempt (raises w) (kill_events f)) as [m1 [e1|]]; cbn [fst snd to_result].
  { by intros [= ->]. }
  rewrite Hc. cbn [from_option]. unfold bind at 1. cbn [ret].
  unfold bind at 1. rewrite exit_extras.
  destruct (attempt (raises w) (extras_exit_events cms)) as [m2 [e2|]];
    cbn [fst snd to_result]; [|done].
  intros [= ->]. by rewrite <- app_assoc.
Qed.

Lemma attempt_exists r evs :
  Exists (fun ev => r ev <> None) evs -> exists e, (attempt r evs).2 = Some e.
Proof.
  induction 1 as [ev evs Hev|ev evs _ IH]; cbn [attempt].
  - destruct (r ev) as [e|]; [by exists e | done].
  - destruct (r ev) as [e|]; [by exists e|].
    destruct IH as [e He]. destruct (attempt r evs). by exists e.
Qed.

(** ** Entering again *)

(** X17: A [TestEnvironment] serves for one scope.  Once [__enter__] has
    returned, and whatever [__exit__] did after it, another [__enter__] on
    the object raises at its first step, in whatever world: the thread of
    the logging proxy cannot be started a second time.  Nothing else is
    entered and the object is left as it was. *)
Theorem reenter_after_exit self w w' :
  (__enter__ (self, w)).1 = Ok tt ->
  __enter__ ((__exit__ (__enter__ (self, w)).2).2.1, w')
  = (Raise (RuntimeError thread_msg),
     ((__exit__ (__enter__ (self, w)).2).2.1, logs [EvEnter ServerLoggingCtx] w')).
Proof.
  intros Hok. destruct (enter_ok self w Hok) as (cfg & _ & -> & _). cbn [fst snd].
  set (w1 := logs (enter_events self (heap w)) w).
  destruct (exit_spec (entered self cfg (started w)) w1 (started w) (env_extras self)
              eq_refl eq_refl (ex_intro _ cfg eq_refl)) as (self2 & -> & Hself).
  cbn [fst snd]. apply enter_thread_started. by destruct Hself as [->| ->].
Qed.

Lemma reenter_after_exit_witness :
  (__enter__ (constructed_quiet.1, constructed_quiet.2)).1 = Ok tt /\
  __enter__ ((__exit__ (__enter__ (constructed_quiet.1, constructed_quiet.2)).2).2.1,
             (__exit__ entered_quiet).2.2)
  = (Raise (RuntimeError thread_msg),
     ((__exit__ (__enter__ (constructed_quiet.1, constructed_quiet.2)).2).2.1,
      logs [EvEnter ServerLoggingCtx] (__exit__ entered_quiet).2.2)).
Proof.
  split; [reflexivity|].
  exact (reenter_after_exit constructed_quiet.1 constructed_quiet.2
           (__exit__ entered_quiet).2.2 eq_refl).
Defined.

Lemma exit_events_early_release (f : fleet) cms :
  Forall (fun r => r = Fleet \/ exists cm, r = ExtraCm cm)
         (released (exit_events_early f cms)).
Proof.
  unfold exit_events_early. rewrite released_app, released_kills. apply Forall_app. split.
  - apply Forall_forall. intros r Hr. left. by apply elem_of_replicate in Hr as [-> _].
  - unfold extras_exit_events. induction cms as [|cm cms IH]; cbn; [constructor|].
    constructor; [right; by exists cm | exact IH].
Qed.

(** X18: When a kill or the exit of an extra raises, [__exit__] ends there:
    the object is left as it was, with [env_extras_cms] still set, and
    neither the cache manager, nor the stash, the config scope or the
    logging proxy is left: what was released is servers of the fleet and
    extras only. *)
Theorem failed_exit_keeps_record self w (f : fleet) cms :
  servers self = Some f -> env_extras_cms self = Some cms ->
  raises w (EvSignal SIG_DFL) = None ->
  Exists (fun ev => raises w ev <> None) (exit_events_early f cms) ->
  (exists e, (__exit__ (self, w)).1 = Raise e) /\
  (__exit__ (self, w)).2.1 = self /\
  env_extras_cms (__exit__ (self, w)).2.1 = Some cms /\
  Forall (fun r => r = Fleet \/ exists cm, r = ExtraCm cm)
         (released (drop (length (trace w)) (trace (__exit__ (self, w)).2.2))).
Proof.
  intros Hs Hc Hsig Hex.
  destruct (attempt_exists _ _ Hex) as [e He].
  rewrite (exit_early_failure self w f cms e Hs Hc Hsig He). cbn [fst snd trace logs].
  split; [by exists e|]. split; [done|]. split; [done|].
  rewrite drop_app_length. cbn [released omap].
  fold (released (attempt (raises w) (exit_events_early f cms)).1).
  destruct (attempt_prefix (raises w) (exit_events_early f cms)) as [rest Hrest].
  pose proof (exit_events_early_release f cms) as Hall.
  rewrite Hrest, released_app in Hall. by apply Forall_app in Hall as [Hall _].
Qed.

Lemma failed_exit_keeps_record_witness :
  servers entered_kill_fails.1 = Some example_fleet /\
  env_extras_cms entered_kill_fails.1 = Some [0%nat; 1%nat] /\
  raises entered_kill_fails.2 (EvSignal SIG_DFL) = None /\
  Exists (fun ev => raises entered_kill_fails.2 ev <> None)
         (exit_events_early example_fleet [0%nat; 1%nat]) /\
  (exists e, (__exit__ (entered_kill_fails.1, entered_kill_fails.2)).1 = Raise e) /\
  (__exit__ (entered_kill_fails.1, entered_kill_fails.2)).2.1 = entered_kill_fails.1 /\
  env_extras_cms (__exit__ (entered_kill_fails.1, entered_kill_fails.2)).2.1
  = Some [0%nat; 1%nat] /\
  Forall (fun r => r = Fleet \/ exists cm, r = ExtraCm cm)
         (released (drop (length (trace entered_kill_fails.2))
                      (trace (__exit__ (entered_kill_fails.1, entered_kill_fails.2)).2.2))).
Proof.
  assert (Hex : Exists (fun ev => raises entered_kill_fails.2 ev <> None)
                       (exit_events_early example_fleet [0%nat; 1%nat])).
  { apply Exists_cons_tl, Exists_cons_tl, Exists_cons_hd. discriminate. }
  split; [reflexivity|]. split; [reflexivity|]. split; [reflexivity|].
  split; [exact Hex|].
  exact (failed_exit_keeps_record entered_kill_fails.1 entered_kill_fails.2
           example_fleet [0%nat; 1%nat] eq_refl eq_refl eq_refl Hex).
Defined.

(** ** More on entering the environment *)

Lemma enter_events_sig_ign self h :
  EvSignal SIG_IGN ∈ enter_events self h -> wants_debugger self h = true.
Proof.
  unfold enter_events, enter_events_before, enter_events_after.
  destruct (wants_debugger self h); [done|].
  rewrite app_nil_r. intros Hin. exfalso. revert Hin.
  rewrite !elem_of_app, !elem_of_cons, elem_of_nil.
  intros [H|[H|H]]; [intuition discriminate| |intuition discriminate].
  unfold extras_enter_events in H. apply list_elem_of_In, in_flat_map in H.
  destruct H as (env & _ & [H|[H|[]]]); discriminate.
Qed.

(** Whatever the outcome of [__enter__], the interrupt signal is ignored
    only for an interactive debugger. *)
Lemma enter_ignores_interrupts_for_debugger_only self w :
  EvSignal SIG_IGN ∈ drop (length (trace w)) (trace (__enter__ (self, w)).2.2) ->
  wants_debugger self (heap w) = true.
Proof.
  destruct (enter_world self w) as (made & -> & Hpre). cbn [trace logs].
  rewrite drop_app_length. intros Hin. apply enter_events_sig_ign.
  destruct Hpre as [k ->]. apply elem_of_app. by left.
Qed.

(** X19: When [__enter__] returns, it has made the calls of its sequence, all
    of them and in order, and none of them raised; [get_routes] returned;
    every extra is recorded in [env_extras_cms] in the order given, and
    [servers] is the fleet that [serve.start] returned.  The interrupt
    signal is ignored exactly when the option [supports_debugger] is true
    and the debug info is interactive, and that is then the last call. *)
Theorem enter_success self w :
  (__enter__ (self, w)).1 = Ok tt ->
  trace (__enter__ (self, w)).2.2 = trace w ++ enter_events self (heap w) /\
  Forall (fun ev => raises w ev = None) (enter_events self (heap w)) /\
  (exists calls, get_routes self (routes_of self w) (heap w) = Ok calls) /\
  env_extras_cms (__enter__ (self, w)).2.1 = Some (env_extras self) /\
  servers (__enter__ (self, w)).2.1 = Some (started w) /\
  (wants_debugger self (heap w) = true ->
   last (enter_events self (heap w)) = Some (EvSignal SIG_IGN)) /\
  (wants_debugger self (heap w) = false ->
   EvSignal SIG_IGN ∉ enter_events self (heap w)).
Proof.
  intros Hok.
  destruct (enter_ok self w Hok) as (cfg & _ & -> & _ & _ & Hall & Hg).
  cbn [fst snd trace logs].
  split; [done|]. split; [done|]. split; [done|]. split; [done|]. split; [done|].
  split.
  - intros Hw. unfold enter_events, enter_events_after. rewrite Hw.
    by rewrite !app_assoc, last_snoc.
  - intros Hw Hin. apply enter_events_sig_ign in Hin. congruence.
Qed.

Lemma enter_success_witness :
  (__enter__ (constructed_debugger.1, constructed_debugger.2)).1 = Ok tt /\
  trace (__enter__ (constructed_debugger.1, constructed_debugger.2)).2.2
  = trace constructed_debugger.2 ++
    enter_events constructed_debugger.1 (heap constructed_debugger.2) /\
  Forall (fun ev => raises constructed_debugger.2 ev = None)
         (enter_events constructed_debugger.1 (heap constructed_debugger.2)) /\
  (exists calls,
     get_routes constructed_debugger.1
       (routes_of constructed_debugger.1 constructed_debugger.2)
       (heap constructed_debugger.2) = Ok calls) /\
  env_extras_cms (__enter__ (constructed_debugger.1, constructed_debugger.2)).2.1
  = Some (env_extras constructed_debugger.1) /\
  servers (__enter__ (constructed_debugger.1, constructed_debugger.2)).2.1
  = Some (started constructed_debugger.2) /\
  (wants_debugger constructed_debugger.1 (heap constructed_debugger.2) = true ->
   last (enter_events constructed_debugger.1 (heap constructed_debugger.2))
   = Some (EvSignal SIG_IGN)) /\
  (wants_debugger constructed_debugger.1 (heap constructed_debugger.2) = false ->
   EvSignal SIG_IGN ∉ enter_events constructed_debugger.1 (heap constructed_debugger.2)).
Proof.
  split; [reflexivity|].
  exact (enter_success constructed_debugger.1 constructed_debugger.2 eq_refl).
Defined.

(** The interrupt signal is really ignored in that environment. *)
Lemma enter_debugger_ignores_interrupts :
  wants_debugger constructed_debugger.1 (heap constructed_debugger.2) = true /\
  last (trace (__enter__ constructed_debugger).2.2) = Some (EvSignal SIG_IGN).
Proof. split; reflexivity. Qed.

(** ** Leaving after a failed start *)

Lemma keeps_ret {A} (a : A) : keeps_servers (ret a).
Proof. by intros s r s' [= _ <-]. Qed.

Lemma keeps_raise {A} e : keeps_servers (@raise St A e).
Proof. by intros s r s' [= _ <-]. Qed.

Lemma keeps_gets {A} (g : St -> A) : keeps_servers (gets g).
Proof. by intros s r s' [= _ <-]. Qed.

Lemma keeps_call ev : keeps_servers (liftW (call ev)).
Proof.
  intros [self w] r s'. unfold liftW, call.
  by destruct (raises w ev); intros [= _ <-].
Qed.

Lemma keeps_set_self g :
  (forall e, servers (g e) = servers e) -> keeps_servers (set_self g).
Proof. intros Hg [self w] r s' [= _ <-]. cbn. by rewrite Hg. Qed.

Lemma keeps_bind {A B} (m : M St A) (k : A -> M St B) :
  keeps_servers m -> (forall a, keeps_servers (k a)) -> keeps_servers (bind m k).
Proof.
  intros Hm Hk s r s'. unfold bind. destruct (m s) as [[a|e] s1] eqn:E.
  - intros H. destruct (Hm _ _ _ E) as [Hs Hr].
    destruct (Hk _ _ _ _ H) as [Hs' Hr']. split; congruence.
  - intros [= _ <-]. by eapply Hm.
Qed.

Lemma keeps_for_each {A} (l : list A) body :
  (forall x, keeps_servers (body x)) -> keeps_servers (for_each l body).
Proof.
  intros Hb. induction l as [|x l IH]; cbn [for_each].
  - apply keeps_ret.
  - apply keeps_bind; [apply Hb | intros _; apply IH].
Qed.

Lemma keeps_logging_ctx_enter : keeps_servers logging_ctx_enter.
Proof.
  unfold logging_ctx_enter.
  apply keeps_bind; [apply keeps_gets|intros self].
  destruct (logging_thread_started self).
  - apply keeps_bind; [by intros [self0 w] r s' [= _ <-]|intros _]. apply keeps_raise.
  - apply keeps_bind; [apply keeps_call|intros _]. by apply keeps_set_self.
Qed.

Lemma on_failure_keeps {A} (m : M St A) :
  keeps_servers m -> keeps_servers_on_failure m.
Proof. intros Hm s r s' E _. right. by eapply Hm. Qed.

Lemma on_failure_bind {A B} (m : M St A) (k : A -> M St B) :
  keeps_servers m -> (forall a, keeps_servers_on_failure (k a)) ->
  keeps_servers_on_failure (bind m k).
Proof.
  intros Hm Hk s r s'. unfold bind. destruct (m s) as [[a|e] s1] eqn:E.
  - intros H Hsig. destruct (Hm _ _ _ E) as [Hs Hr].
    rewrite <- Hr in Hsig. destruct (Hk _ _ _ _ H Hsig) as [Hok|Hs'].
    + by left.
    + right. congruence.
  - intros [= _ <-] _. right. by eapply Hm.
Qed.

Lemma enter_keeps_servers_on_failure : keeps_servers_on_failure __enter__.
Proof.
  unfold __enter__.
  apply on_failure_bind; [apply keeps_logging_ctx_enter|intros _].
  apply on_failure_bind; [apply keeps_gets|intros self].
  apply on_failure_bind; [apply keeps_gets|intros w].
  destruct (build_config self (config_src w) (heap w)) as [cfg|e];
    [|apply on_failure_keeps, keeps_raise].
  apply on_failure_bind; [by apply keeps_set_self|intros _].
  apply on_failure_bind; [apply keeps_call|intros _].
  apply on_failure_bind; [by apply keeps_set_self|intros _].
  apply on_failure_bind; [apply keeps_call|intros _].
  apply on_failure_bind; [apply keeps_call|intros _].
  apply on_failure_bind; [apply keeps_gets|intros self1].
  destruct (env_extras_cms self1); [apply on_failure_keeps, keeps_raise|].
  apply on_failure_bind; [by apply keeps_set_self|intros _].
  apply on_failure_bind.
  { apply keeps_for_each. intros env.
    apply keeps_bind; [apply keeps_call|intros _].
    apply keeps_bind; [apply keeps_call|intros _]. by apply keeps_set_self. }
  intros _. apply on_failure_bind; [apply keeps_call|intros _].
  apply on_failure_bind; [apply keeps_gets|intros w1].
  apply on_failure_bind; [by intros s r s' [= _ <-]|intros routes].
  apply on_failure_bind; [apply keeps_call|intros _].
  intros [self2 w2] r s' E Hsig. left. revert E.
  unfold bind at 1. cbn [gets snd]. unfold bind at 1. cbn [set_self modify].
  destruct (_ && _).
  - unfold liftW, call. cbn [snd] in Hsig. rewrite Hsig. intros [= <- _]. by eexists.
  - intros [= <- _]. by eexists.
Qed.

(** X20: When the first [__enter__] of an object fails, in a world where
    setting the handler of the interrupt signal (to ignore it, and to
    restore the default) does not raise, the attribute [servers] is not
    assigned; so the resources that were entered cannot be released through
    [__exit__]: it restores the interrupt handler and raises the attribute
    error, and kills and leaves nothing. *)
Theorem failed_enter_blocks_exit self w e :
  servers self = None ->
  (__enter__ (self, w)).1 = Raise e ->
  raises w (EvSignal SIG_IGN) = None ->
  raises w (EvSignal SIG_DFL) = None ->
  servers (__enter__ (self, w)).2.1 = None /\
  (__exit__ (__enter__ (self, w)).2).1
  = Raise (AttributeError "'TestEnvironment' object has no attribute 'servers'") /\
  trace (__exit__ (__enter__ (self, w)).2).2.2
  = trace (__enter__ (self, w)).2.2 ++ [EvSignal SIG_DFL].
Proof.
  intros Hs Hraise Hign Hdfl.
  destruct (enter_world self w) as (made & Hw & _).
  destruct (__enter__ (self, w)) as [r [self' w']] eqn:E. cbn [fst snd] in *.
  subst r w'.
  destruct (enter_keeps_servers_on_failure _ _ _ E Hign) as [[a [=]]|Hsame].
  cbn [fst] in Hsame. rewrite Hs in Hsame.
  rewrite (exit_without_servers self' (logs made w) Hsame). cbn [raises logs].
  rewrite Hdfl. cbn [fst snd logs trace]. by rewrite <- app_assoc.
Qed.

Lemma failed_enter_blocks_exit_witness :
  servers constructed_start_fails.1 = None /\
  (__enter__ (constructed_start_fails.1, constructed_start_fails.2)).1
  = Raise (CollaboratorError "serve.start") /\
  raises constructed_start_fails.2 (EvSignal SIG_IGN) = None /\
  raises constructed_start_fails.2 (EvSignal SIG_DFL) = None /\
  servers (__enter__ (constructed_start_fails.1, constructed_start_fails.2)).2.1 = None /\
  (__exit__ (__enter__ (constructed_start_fails.1, constructed_start_fails.2)).2).1
  = Raise (AttributeError "'TestEnvironment' object has no attribute 'servers'") /\
  trace (__exit__ (__enter__ (constructed_start_fails.1, constructed_start_fails.2)).2).2.2
  = trace (__enter__ (constructed_start_fails.1, constructed_start_fails.2)).2.2 ++
    [EvSignal SIG_DFL].
Proof.
  split; [reflexivity|]. split; [reflexivity|]. split; [reflexivity|].
  split; [reflexivity|].
  apply (failed_enter_blocks_exit constructed_start_fails.1 constructed_start_fails.2
           (CollaboratorError "serve.start")); reflexivity.
Defined.

(** ** The routes *)

Lemma Ok_inj {A} (a b : A) : Ok a = Ok b -> a = b.
Proof. by intros [= ->]. Qed.

Lemma mount_points_app a b : mount_points (a ++ b) = mount_points a ++ mount_points b.
Proof. apply omap_app. Qed.

Lemma mount_test_paths_ok items calls :
  mount_test_paths items = Ok calls ->
  mount_points calls = test_path_mounts items /\
  calls = map (fun m => AddMountPoint (fst m) (snd m)) (test_path_mounts items) /\
  Forall (fun entry => ~ lacks_tests_path entry) items.
Proof.
  revert calls. induction items as [|[url_base paths] items IH]; intros calls.
  - intros [= <-]. by repeat split.
  - cbn [mount_test_paths test_path_mounts flat_map]. fold (test_path_mounts items).
    destruct (String.eqb url_base "/") eqn:Hroot.
    + intros H. destruct (IH _ H) as (Hm & Hc & Hall). repeat split; [done..|].
      constructor; [|done]. intros [Hne _]. apply String.eqb_eq in Hroot. by cbn in Hne.
    + destruct (paths !! "tests_path") as [p|] eqn:Hp; [|done].
      destruct (mount_test_paths items) as [calls'|e]; [|done].
      intros [= <-]. destruct (IH _ eq_refl) as (Hm & Hc & Hall).
      split; [|split].
      * change (mount_points (AddMountPoint url_base p :: calls'))
          with ((url_base, p) :: mount_points calls'). by rewrite Hm.
      * by rewrite Hc at 1.
      * constructor; [|done]. intros [_ Hnone]. cbn in Hnone. congruence.
Qed.

Lemma mount_test_paths_raise items e :
  mount_test_paths items = Raise e ->
  e = KeyError "tests_path" /\ Exists lacks_tests_path items.
Proof.
  induction items as [|[url_base paths] items IH]; [done|].
  cbn [mount_test_paths].
  destruct (String.eqb url_base "/") eqn:Hroot.
  - intros H. destruct (IH H) as [-> Hex]. split; [done|]. by apply Exists_cons_tl.
  - destruct (paths !! "tests_path") as [p|] eqn:Hp.
    + destruct (mount_test_paths items) as [calls'|e']; [done|].
      intros [= <-]. destruct (IH eq_refl) as [-> Hex]. split; [done|].
      by apply Exists_cons_tl.
    + intros [= <-]. split; [done|]. apply Exists_cons_hd. split; [|done].
      cbn. intros ->. by rewrite String.eqb_refl in Hroot.
Qed.

(** Whether [get_routes] raises, and what, does not depend on the order in
    which the test paths are listed. *)
Lemma get_routes_order self rs h items items' :
  items ≡ₚ items' ->
  match get_routes self (with_test_paths_items items rs) h,
        get_routes self (with_test_paths_items items' rs) h with
  | Ok _, Ok _ => True
  | Raise e, Raise e' => e = e'
  | _, _ => False
  end.
Proof.
  intros Hp. unfold get_routes.
  destruct (dict_get (options self) "testharnessreport" _ h); try done.
  cbn [test_paths_items with_test_paths_items].
  destruct (mount_test_paths items) as [c|e] eqn:E1,
           (mount_test_paths items') as [c'|e'] eqn:E2; try done.
  - apply mount_test_paths_ok in E1 as (_ & _ & Hall).
    apply mount_test_paths_raise in E2 as [_ Hex].
    rewrite <- Hp in Hex. apply Exists_exists in Hex as (entry & Hin & Hl).
    rewrite Forall_forall in Hall. by apply (Hall entry Hin).
  - apply mount_test_paths_ok in E2 as (_ & _ & Hall).
    apply mount_test_paths_raise in E1 as [_ Hex].
    rewrite Hp in Hex. apply Exists_exists in Hex as (entry & Hin & Hl).
    rewrite Forall_forall in Hall. by apply (Hall entry Hin).
  - apply mount_test_paths_raise in E1 as [-> _].
    by apply mount_test_paths_raise in E2 as [-> _].
Qed.

(** X21: [get_routes] mounts one directory per test-path entry other than the
    root, in the order of the entries and with the tests path of the entry,
    then the generated bindings at [/gen/] when [mojojs_path] is set and not
    empty; it mounts nothing else, and never the root. *)
Theorem get_routes_mount_points self rs h calls :
  get_routes self rs h = Ok calls ->
  mount_points calls = test_path_mounts (test_paths_items rs) ++ gen_mount rs /\
  (forall url_base path, (url_base, path) ∈ mount_points calls -> url_base <> "/").
Proof.
  unfold get_routes. destruct (dict_get _ _ _ _) as [| | |report]; try done.
  destruct (mount_test_paths (test_paths_items rs)) as [mounts|e] eqn:Hm; [|done].
  intros Hcalls. apply Ok_inj in Hcalls.
  destruct (mount_test_paths_ok _ _ Hm) as (Hmounts & _ & _).
  assert (Heq : mount_points calls
                = test_path_mounts (test_paths_items rs) ++ gen_mount rs).
  { rewrite <- Hcalls, !mount_points_app, Hmounts.
    change (mount_points (map _ (static_routes self rs report))) with (@nil (string * string)).
    change (mount_points [AddHandler _ _ _ _]) with (@nil (string * string)).
    change (mount_points [GetRoutes]) with (@nil (string * string)).
    cbn [app]. f_equal. unfold gen_mount.
    destruct (existsb (String.eqb "/") (map fst (test_paths_items rs)));
      destruct (mojojs_path rs) as [p|]; try destruct (String.eqb p ""); reflexivity. }
  split; [exact Heq|]. rewrite Heq. intros url_base path [Hin|Hin]%elem_of_app.
  - unfold test_path_mounts in Hin. apply list_elem_of_In, in_flat_map in Hin.
    destruct Hin as ([u paths] & _ & Hin).
    destruct (String.eqb u "/") eqn:Hu; [done|].
    destruct (paths !! "tests_path"); [|done].
    destruct Hin as [[= <- <-]|[]]. intros ->. by rewrite String.eqb_refl in Hu.
  - unfold gen_mount in Hin. destruct (mojojs_path rs) as [p|]; [|by apply elem_of_nil in Hin].
    destruct (String.eqb p ""); [by apply elem_of_nil in Hin|].
    by apply list_elem_of_singleton in Hin as [= -> _].
Qed.

Lemma get_routes_mount_points_witness :
  get_routes constructed_quiet.1 (example_routes example_items) (heap constructed_quiet.2)
  = Ok example_calls /\
  mount_points example_calls
  = test_path_mounts (test_paths_items (example_routes example_items)) ++
    gen_mount (example_routes example_items) /\
  (forall url_base path, (url_base, path) ∈ mount_points example_calls -> url_base <> "/").
Proof.
  split; [reflexivity|].
  apply (get_routes_mount_points constructed_quiet.1 (example_routes example_items)
           (heap constructed_quiet.2) example_calls).
  reflexivity.
Defined.

Lemma get_routes_calls self rs h calls :
  get_routes self rs h = Ok calls ->
  exists report fixed,
    dict_get (options self) "testharnessreport" (VStr "testharnessreport.js") h
    = VStr report /\
    length fixed = 6%nat /\
    static_routes_of fixed
    = map (fun route => (route, cache_headers))
        ["/testharness_runner.html"; "/print_reftest_runner.html"; "/_pdf_js/pdf.js";
         "/_pdf_js/pdf.worker.js"; "/resources/testharnessreport.js"] /\
    handlers_of fixed
    = [("GET", "/resources/testdriver.js", testdriver_js rs +:+ testdriver_extra_js rs)] /\
    forallb is_fixed_call fixed = true /\
    calls = fixed ++
            map (fun m => AddMountPoint (fst m) (snd m))
                (test_path_mounts (test_paths_items rs)) ++
            (if existsb (String.eqb "/") (map fst (test_paths_items rs))
             then [] else [DelMountpointRoutes "/"]) ++
            map (fun m => AddMountPoint (fst m) (snd m)) (gen_mount rs) ++ [GetRoutes].
Proof.
  unfold get_routes. destruct (dict_get _ _ _ _) as [| | |report]; try done.
  destruct (mount_test_paths (test_paths_items rs)) as [mounts|e] eqn:Hm; [|done].
  intros Hcalls. apply Ok_inj in Hcalls.
  destruct (mount_test_paths_ok _ _ Hm) as (_ & Hmounts & _).
  exists report. eexists. split; [done|].
  split; [|split; [|split; [|split]]]; cycle 4.
  - rewrite <- Hcalls, Hmounts, app_assoc. do 3 f_equal.
    unfold gen_mount. destruct (mojojs_path rs) as [p|]; [|done].
    by destruct (String.eqb p "").
  - reflexivity.
  - reflexivity.
  - reflexivity.
  - reflexivity.
Qed.

Lemma existsb_root (l : list string) :
  existsb (String.eqb "/") l = true <-> "/" ∈ l.
Proof.
  rewrite existsb_exists. split.
  - intros (x & Hin & ->%String.eqb_eq). by apply list_elem_of_In.
  - intros Hin. exists "/". split; [by apply list_elem_of_In | apply String.eqb_refl].
Qed.

(** X22: [get_routes] deletes the root routes of the builder exactly when the test
    paths have no root entry; it does so after the mount points of the test
    paths were added. *)
Theorem get_routes_root_routes self rs h calls :
  get_routes self rs h = Ok calls ->
  (DelMountpointRoutes "/" ∈ calls <-> "/" ∉ map fst (test_paths_items rs)).
Proof.
  intros H. destruct (get_routes_calls self rs h calls H)
    as (report & fixed & _ & _ & _ & _ & Hfix & ->).
  rewrite forallb_forall in Hfix.
  rewrite <- existsb_root.
  assert (Hnot : forall l : list (string * string),
            DelMountpointRoutes "/" ∉ map (fun m => AddMountPoint (fst m) (snd m)) l).
  { intros l Hin. apply list_elem_of_In, in_map_iff in Hin. by destruct Hin as (m & [=] & _). }
  assert (Hfixed : DelMountpointRoutes "/" ∉ fixed).
  { intros Hin%list_elem_of_In. by apply Hfix in Hin. }
  rewrite !elem_of_app.
  destruct (existsb (String.eqb "/") (map fst (test_paths_items rs))).
  - split; [|done]. intros [?|[?%Hnot|[?%elem_of_nil|[?%Hnot|Hin]]]]; try done.
    by apply list_elem_of_singleton in Hin.
  - split; [done|]. intros _. right. right. left. by apply list_elem_of_singleton.
Qed.

Lemma get_routes_root_routes_witness :
  get_routes constructed_quiet.1 (example_routes items_without_root)
    (heap constructed_quiet.2) = Ok calls_without_root /\
  (DelMountpointRoutes "/" ∈ calls_without_root <->
   "/" ∉ map fst (test_paths_items (example_routes items_without_root))).
Proof.
  split; [reflexivity|].
  apply (get_routes_root_routes constructed_quiet.1 (example_routes items_without_root)
           (heap constructed_quiet.2) calls_without_root).
  reflexivity.
Defined.

(** X23: The routes that do not depend on the test paths: [get_routes] first
    adds the five static routes, each with the cache header, then the one
    handler that serves the two test driver documents one after the other;
    its last call asks the builder for the routes. *)
Theorem get_routes_fixed_routes self rs h calls :
  get_routes self rs h = Ok calls ->
  static_routes_of calls
  = map (fun route => (route, cache_headers))
      ["/testharness_runner.html"; "/print_reftest_runner.html"; "/_pdf_js/pdf.js";
       "/_pdf_js/pdf.worker.js"; "/resources/testharnessreport.js"] /\
  handlers_of calls
  = [("GET", "/resources/testdriver.js", testdriver_js rs +:+ testdriver_extra_js rs)] /\
  forallb is_fixed_call (take 6 calls) = true /\
  last calls = Some GetRoutes.
Proof.
  intros H. destruct (get_routes_calls self rs h calls H)
    as (report & fixed & _ & Hlen & Hst & Hh & Hfix & ->).
  assert (Hmap_s : forall l : list (string * string),
            static_routes_of (map (fun m => AddMountPoint (fst m) (snd m)) l) = []).
  { induction l as [|m l IH]; [done|]. exact IH. }
  assert (Hmap_h : forall l : list (string * string),
            handlers_of (map (fun m => AddMountPoint (fst m) (snd m)) l) = []).
  { induction l as [|m l IH]; [done|]. exact IH. }
  split; [|split; [|split]].
  - unfold static_routes_of in *. rewrite !omap_app, Hst.
    fold static_routes_of. rewrite !Hmap_s.
    destruct (existsb _ _); by rewrite ?app_nil_r.
  - unfold handlers_of in *. rewrite !omap_app, Hh.
    fold handlers_of. rewrite !Hmap_h.
    destruct (existsb _ _); by rewrite ?app_nil_r.
  - rewrite take_app_length'; done.
  - by rewrite !app_assoc, last_snoc.
Qed.

Lemma get_routes_fixed_routes_witness :
  get_routes constructed_quiet.1 (example_routes example_items) (heap constructed_quiet.2)
  = Ok example_calls /\
  static_routes_of example_calls
  = map (fun route => (route, cache_headers))
      ["/testharness_runner.html"; "/print_reftest_runner.html"; "/_pdf_js/pdf.js";
       "/_pdf_js/pdf.worker.js"; "/resources/testharnessreport.js"] /\
  handlers_of example_calls
  = [("GET", "/resources/testdriver.js",
      testdriver_js (example_routes example_items) +:+
      testdriver_extra_js (example_routes example_items))] /\
  forallb is_fixed_call (take 6 example_calls) = true /\
  last example_calls = Some GetRoutes.
Proof.
  split; [reflexivity|].
  apply (get_routes_fixed_routes constructed_quiet.1 (example_routes example_items)
           (heap constructed_quiet.2) example_calls).
  reflexivity.
Defined.

(** X24: [get_routes] needs a tests path in every entry of the test paths other
    than the root, and only there: with a string for the report path, it
    raises the key error exactly when such an entry has none, and it returns
    exactly when every such entry has one; the root entry is not read. *)
Theorem get_routes_tests_paths self rs h report :
  dict_get (options self) "testharnessreport" (VStr "testharnessreport.js") h
  = VStr report ->
  (get_routes self rs h = Raise (KeyError "tests_path") <->
   Exists lacks_tests_path (test_paths_items rs)) /\
  ((exists calls, get_routes self rs h = Ok calls) <->
   Forall (fun entry => ~ lacks_tests_path entry) (test_paths_items rs)).
Proof.
  intros Hr. unfold get_routes. rewrite Hr.
  destruct (mount_test_paths (test_paths_items rs)) as [mounts|e] eqn:Hm.
  - destruct (mount_test_paths_ok _ _ Hm) as (_ & _ & Hall). split; split.
    + done.
    + intros Hex. apply Exists_exists in Hex as (entry & Hin & Hlacks).
      rewrite Forall_forall in Hall. by apply Hall in Hlacks.
    + done.
    + intros _. by eexists.
  - destruct (mount_test_paths_raise _ _ Hm) as [-> Hex]. split; split.
    + done.
    + done.
    + by intros [calls [=]].
    + intros Hall. apply Exists_exists in Hex as (entry & Hin & Hlacks).
      rewrite Forall_forall in Hall. by apply Hall in Hlacks.
Qed.

Lemma get_routes_tests_paths_witness :
  dict_get (options constructed_quiet.1) "testharnessreport" (VStr "testharnessreport.js")
    (heap constructed_quiet.2) = VStr "testharnessreport.js" /\
  (get_routes constructed_quiet.1 (example_routes items_without_tests_path)
     (heap constructed_quiet.2) = Raise (KeyError "tests_path") <->
   Exists lacks_tests_path (test_paths_items (example_routes items_without_tests_path))) /\
  ((exists calls,
      get_routes constructed_quiet.1 (example_routes items_without_tests_path)
        (heap constructed_quiet.2) = Ok calls) <->
   Forall (fun entry => ~ lacks_tests_path entry)
          (test_paths_items (example_routes items_without_tests_path))).
Proof.
  split; [reflexivity|].
  apply (get_routes_tests_paths constructed_quiet.1
           (example_routes items_without_tests_path) (heap constructed_quiet.2)
           "testharnessreport.js").
  reflexivity.
Defined.

(** For those test paths the key error is raised, although the root entry
    is the first without a tests path. *)
Lemma get_routes_missing_tests_path :
  get_routes constructed_quiet.1 (example_routes items_without_tests_path)
    (heap constructed_quiet.2) = Raise (KeyError "tests_path") /\
  ~ lacks_tests_path ("/", ∅).
Proof. split; [reflexivity|]. by intros [H _]. Qed.
